(** * gaica-convert: a shallow embedding of [convert.py]

    [convert.py] reads saved GAICA statement pages, turns every data row of
    the transaction table into an [Entry], collects the entries of all pages
    in one set and writes the set to a CSV file.

    The embedding follows the script function by function ([clean_decimal],
    [read_in], [main]).  What the script takes from its libraries is modelled
    next to it:
    - [str] values are lists of Unicode code points, with [str.strip] and
      [str.replace] as the interpreter defines them;
    - [decimal.Decimal]: the exact constructor from a string with the limits
      of a 64-bit build, multiplication in the default context (28 digits,
      round-half-even, exponents within +-999999, overflow trapped),
      equality and hashability;
    - [datetime.date.fromisoformat] as interpreters from 3.11 on have it:
      calendar dates with or without hyphens, and week dates;
    - a BeautifulSoup tree with [find_all], [find] and [.string];
    - Python exceptions as the error side of a result type;
    - what the csv writer makes of an entry: [str] of a date and of a
      decimal, and minimal quoting;
    - the output file as the lines written to it, on a platform that says
      whether the path can be opened and which texts its encoding takes.

    A page enters the model as the tree BeautifulSoup built from it; reading
    and decoding the file and the HTML parser itself are outside the model,
    and so are errors of the operating system once the output is open (a
    full disk). *)

From Stdlib Require Import List String Ascii Bool NArith ZArith QArith Qpower Lia
     Permutation.
Import ListNotations.

Set Implicit Arguments.
Set Warnings "-register-all,-notation-for-abbreviation".
Close Scope Q_scope.
Open Scope N_scope.
Open Scope list_scope.

(* ================================================================== *)
(** * Python values, strings and exceptions *)
(* ================================================================== *)

Module Py.

(** A [str] is a sequence of code points. *)
Notation char := N (only parsing).
Notation str := (list N) (only parsing).

(** An ASCII literal as a [str]. *)
Definition lit (s : string) : str := map N_of_ascii (list_ascii_of_string s).

Definition str_eqb (a b : str) : bool :=
  if list_eq_dec N.eq_dec a b then true else false.

(** The exceptions the script can run into. *)
Inductive Exn : Type :=
| AttributeError     (* attribute access on None *)
| IndexError         (* list index out of range *)
| ValueError         (* unpacking, clean_decimal, fromisoformat *)
| TypeError          (* hashing a signaling NaN *)
| InvalidOperation   (* decimal: conversion syntax, signaling NaN operand *)
| Overflow.          (* decimal: result above Emax *)

Inductive Result (A : Type) : Type :=
| Ok (a : A)
| Raise (e : Exn).
Arguments Ok {A} a.
Arguments Raise {A} e.

Definition bind {A B} (m : Result A) (f : A -> Result B) : Result B :=
  match m with
  | Ok a => f a
  | Raise e => Raise e
  end.

(** [c.isspace()]: the code points [str.strip()] removes. *)
Definition isspace (c : char) : bool :=
  ((9 <=? c) && (c <=? 13)) || ((28 <=? c) && (c <=? 32))
  || (c =? 133) || (c =? 160) || (c =? 5760)
  || ((8192 <=? c) && (c <=? 8202))
  || (c =? 8232) || (c =? 8233) || (c =? 8239) || (c =? 8287)
  || (c =? 12288).

Fixpoint lstrip (s : str) : str :=
  match s with
  | [] => []
  | c :: r => if isspace c then lstrip r else s
  end.

Definition rstrip (s : str) : str := rev (lstrip (rev s)).

(** [s.strip()] *)
Definition strip (s : str) : str := rstrip (lstrip s).

(** [s.replace(old, "")] for a one-character [old]. *)
Definition remove_char (old : char) (s : str) : str :=
  filter (fun c => negb (c =? old)) s.

(** [s.replace(old, new)] for one-character [old] and [new]. *)
Definition replace_char (old new : char) (s : str) : str :=
  map (fun c => if c =? old then new else c) s.

(** [l[i]] *)
Definition index {A} (l : list A) (i : nat) : Result A :=
  match nth_error l i with
  | Some a => Ok a
  | None => Raise IndexError
  end.

(** [x.strip()] where [x] is a [str] or [None]. *)
Definition strip_attr (x : option str) : Result str :=
  match x with
  | Some s => Ok (strip s)
  | None => Raise AttributeError
  end.

End Py.

Import Py.

Declare Scope py_scope.
Delimit Scope py_scope with py.
Notation "x <- m ;; k" := (bind m (fun x => k))
  (at level 61, m at next level, right associativity) : py_scope.
Open Scope py_scope.

(* ================================================================== *)
(** * decimal.Decimal *)
(* ================================================================== *)

Module Dec.

(** A decimal is a finite number [(-1)^sign * coeff * 10^exp], an infinity
    or a NaN (quiet or signaling, with a payload; payload 0 is the empty
    diagnostic). *)
Inductive Decimal : Type :=
| Finite (sign : bool) (coeff : N) (exp : Z)
| Infinity (sign : bool)
| NaN (sign : bool) (signaling : bool) (payload : N).

(** [Decimal(0)] *)
Definition zero : Decimal := Finite false 0 0.

(** ** Construction from a string *)

(** First code point of every run of ten decimal digits of Unicode 14.0
    (category Nd): the code points [Py_UNICODE_TODECIMAL] knows. *)
Definition decimal_zeros : list N :=
  [48; 1632; 1776; 1984; 2406; 2534; 2662; 2790; 2918; 3046; 3174; 3302;
   3430; 3558; 3664; 3792; 3872; 4160; 4240; 6112; 6160; 6470; 6608; 6784;
   6800; 6992; 7088; 7232; 7248; 42528; 43216; 43264; 43472; 43504; 43600;
   44016; 65296; 66720; 68912; 69734; 69872; 69942; 70096; 70384; 70736;
   70864; 71248; 71360; 71472; 71904; 72016; 72784; 73040; 73120; 92768;
   92864; 93008; 120782; 120792; 120802; 120812; 120822; 123200; 123632;
   125264; 130032].

Definition todecimal (c : char) : option N :=
  match find (fun z => (z <=? c) && (c <? z + 10)) decimal_zeros with
  | Some z => Some (c - z)
  | None => None
  end.

(** The constructor first rewrites the stripped text to ASCII: underscores
    are dropped, ASCII is kept, other white space becomes a blank, other
    decimal digits become ['0'..'9'], and anything else is a syntax error. *)
Fixpoint numeric_as_ascii (s : str) : option str :=
  match s with
  | [] => Some []
  | c :: r =>
    if c =? 95 then numeric_as_ascii r
    else
      let keep (a : char) :=
        match numeric_as_ascii r with
        | Some t => Some (a :: t)
        | None => None
        end in
      if (0 <? c) && (c <=? 127) then keep c
      else if isspace c then keep 32
      else match todecimal c with
           | Some d => keep (48 + d)
           | None => None
           end
  end.

Definition is_digit (c : char) : bool := (48 <=? c) && (c <=? 57).

(** The longest prefix of digits, and the rest. *)
Fixpoint span_digits (s : str) : str * str :=
  match s with
  | [] => ([], [])
  | c :: r =>
    if is_digit c
    then let (d, t) := span_digits r in (c :: d, t)
    else ([], s)
  end.

(** The number a digit string writes (0 for the empty string). *)
Definition digits_value (ds : str) : N :=
  fold_left (fun acc c => acc * 10 + (c - 48)) ds 0.

Definition lower (c : char) : char :=
  if (65 <=? c) && (c <=? 90) then c + 32 else c.

(** [Some rest] when [s] starts with the lower-case ASCII word [p],
    compared without case. *)
Fixpoint strip_prefix_ci (p s : str) : option str :=
  match p, s with
  | [], _ => Some s
  | a :: p', c :: s' => if lower c =? a then strip_prefix_ci p' s' else None
  | _ :: _, [] => None
  end.

Definition parse_sign (s : str) : bool * str :=
  match s with
  | c :: r =>
    if c =? 43 then (false, r)
    else if c =? 45 then (true, r)
    else (false, s)
  | [] => (false, [])
  end.

(** The optional exponent part, up to the end of the text. *)
Definition parse_exponent (s : str) : option Z :=
  match s with
  | [] => Some 0%Z
  | c :: r =>
    if lower c =? 101 then
      let (neg, r') := parse_sign r in
      match span_digits r' with
      | ((_ :: _) as ds, []) =>
        let v := Z.of_N (digits_value ds) in
        Some (if neg then (- v)%Z else v)
      | _ => None
      end
    else None
  end.

(** Decimal digits of [c], where [c] is at most [fuel]: each step drops a
    digit of [c] and a bit of [fuel]. *)
Fixpoint ndigits_pos (fuel : positive) (c : N) : N :=
  if c <? 10 then 1
  else match fuel with
       | xH => 1
       | xO f | xI f => 1 + ndigits_pos f (c / 10)
       end.

(** Number of decimal digits of a coefficient (1 for 0): [len(self._int)]. *)
Definition ndigits (c : N) : Z :=
  match c with
  | 0 => 1%Z
  | Npos p => Z.of_N (ndigits_pos p c)
  end.

(** The limits of the maximum context of a 64-bit build, in which the
    constructor reads a number: a result that does not fit it as it is
    makes the constructor raise. *)
Definition max_prec : Z := 999999999999999999.
Definition max_emax : Z := 999999999999999999.
Definition min_etiny : Z := - max_emax - (max_prec - 1).

Definition within_max_context (c : N) (e : Z) : bool :=
  if c =? 0 then (min_etiny <=? e)%Z && (e <=? max_emax)%Z
  else (ndigits c <=? max_prec)%Z && (e + ndigits c - 1 <=? max_emax)%Z
       && (min_etiny <=? e)%Z.

(** Digits with an optional point (at least one digit) and exponent.  The
    number has to lie within the maximum context.  A text without an
    exponent part is beyond it only with 10^18 digits or more, more than
    the address space of a process holds, and is not checked there
    ([plain_number_within_max_context] below). *)
Definition parse_number (sign : bool) (s : str) : option Decimal :=
  let (ip, r1) := span_digits s in
  let (fp, r2) := match r1 with
                  | c :: r => if c =? 46 then span_digits r else ([], r1)
                  | [] => ([], [])
                  end in
  match ip ++ fp with
  | [] => None
  | _ :: _ =>
    match parse_exponent r2 with
    | Some e =>
      let c := digits_value (ip ++ fp) in
      let e' := (e - Z.of_nat (List.length fp))%Z in
      if match r2 with [] => true | _ :: _ => false end
         || within_max_context c e'
      then Some (Finite sign c e')
      else None
    | None => None
    end
  end.

(** A NaN's diagnostic: digits up to the end of the text. *)
Definition parse_payload (s : str) : option N :=
  match span_digits s with
  | (ds, []) => Some (digits_value ds)
  | _ => None
  end.

Definition parse_ascii (s : str) : option Decimal :=
  let (sign, r) := parse_sign s in
  match strip_prefix_ci (lit "nan") r with
  | Some t =>
    match parse_payload t with
    | Some p => Some (NaN sign false p)
    | None => None
    end
  | None =>
  match strip_prefix_ci (lit "snan") r with
  | Some t =>
    match parse_payload t with
    | Some p => Some (NaN sign true p)
    | None => None
    end
  | None =>
  match strip_prefix_ci (lit "inf") r with
  | Some t =>
    match t with
    | [] => Some (Infinity sign)
    | _ => match strip_prefix_ci (lit "inity") t with
           | Some [] => Some (Infinity sign)
           | _ => None
           end
    end
  | None => parse_number sign r
  end end end.

(** [Decimal(s)]: exact, whatever the context's precision. *)
Definition of_str (s : str) : Result Decimal :=
  match numeric_as_ascii (strip s) with
  | None => Raise InvalidOperation
  | Some a =>
    match parse_ascii a with
    | Some d => Ok d
    | None => Raise InvalidOperation
    end
  end.

(** ** Arithmetic in the default context *)

Definition prec : Z := 28.
Definition Emax : Z := 999999.
Definition Emin : Z := -999999.
Definition Etiny : Z := Emin - prec + 1.
Definition Etop : Z := Emax - prec + 1.

(** Round a finite result to the context (round-half-even); a result above
    [Emax] raises [Overflow], which the default context traps. *)
Definition fix_finite (sign : bool) (c : N) (e : Z) : Result Decimal :=
  if c =? 0 then Ok (Finite sign 0 (Z.min (Z.max e Etiny) Emax))
  else
    let exp_min := (ndigits c + e - prec)%Z in
    if (Etop <? exp_min)%Z then Raise Overflow
    else
      let exp_min := Z.max exp_min Etiny in
      if (e <? exp_min)%Z then
        let p := 10 ^ Z.to_N (exp_min - e) in
        let q := c / p in
        let r := c mod p in
        let up := (p <? 2 * r) || ((p =? 2 * r) && N.odd q) in
        let q := if up then q + 1 else q in
        let carry := (prec <? ndigits q)%Z in
        let q := if carry then q / 10 else q in
        let exp_min := if carry then (exp_min + 1)%Z else exp_min in
        if (Etop <? exp_min)%Z then Raise Overflow
        else Ok (Finite sign q exp_min)
      else Ok (Finite sign c e).

(** A quiet NaN result keeps at most [prec] payload digits. *)
Definition fix_nan (sign : bool) (payload : N) : Decimal :=
  NaN sign false (payload mod 10 ^ Z.to_N prec).

(** [a * b] *)
Definition mul (a b : Decimal) : Result Decimal :=
  match a, b with
  | NaN _ true _, _ => Raise InvalidOperation
  | _, NaN _ true _ => Raise InvalidOperation
  | NaN s false p, _ => Ok (fix_nan s p)
  | _, NaN s false p => Ok (fix_nan s p)
  | Infinity s, Finite s' c _ =>
    if c =? 0 then Raise InvalidOperation else Ok (Infinity (xorb s s'))
  | Finite s c _, Infinity s' =>
    if c =? 0 then Raise InvalidOperation else Ok (Infinity (xorb s s'))
  | Infinity s, Infinity s' => Ok (Infinity (xorb s s'))
  | Finite s1 c1 e1, Finite s2 c2 e2 =>
    fix_finite (xorb s1 s2) (c1 * c2) (e1 + e2)%Z
  end.

(** [Decimal(-1)], what the int [-1] converts to as an operand. *)
Definition minus_one : Decimal := Finite true 1 0.

(** The decimal with the sign flipped ([copy_negate]). *)
Definition negate (d : Decimal) : Decimal :=
  match d with
  | Finite s c e => Finite (negb s) c e
  | Infinity s => Infinity (negb s)
  | NaN s sg p => NaN (negb s) sg p
  end.

(** ** Equality and hashing *)

(** [a == b] between two decimals, neither a signaling NaN: numbers are
    compared by value, and a NaN equals nothing. *)
Definition eqb (a b : Decimal) : bool :=
  match a, b with
  | Finite s1 c1 e1, Finite s2 c2 e2 =>
    if c1 =? 0 then c2 =? 0
    else if c2 =? 0 then false
    else
      let m := Z.min e1 e2 in
      Bool.eqb s1 s2
      && (c1 * 10 ^ Z.to_N (e1 - m) =? c2 * 10 ^ Z.to_N (e2 - m))
  | Infinity s1, Infinity s2 => Bool.eqb s1 s2
  | _, _ => false
  end.

(** [hash(d)] raises [TypeError] exactly on a signaling NaN. *)
Definition hashable (d : Decimal) : bool :=
  match d with
  | NaN _ true _ => false
  | _ => true
  end.

End Dec.

(* ================================================================== *)
(** * datetime.date *)
(* ================================================================== *)

Module Datetime.

Record Date : Type := mkDate { year : N; month : N; day : N }.

Definition is_leap (y : N) : bool :=
  (y mod 4 =? 0) && (negb (y mod 100 =? 0) || (y mod 400 =? 0)).

Definition days_in_month (y m : N) : N :=
  if m =? 2 then (if is_leap y then 29 else 28)
  else if (m =? 4) || (m =? 6) || (m =? 9) || (m =? 11) then 30
  else 31.

(** The UTF-8 bytes of a code point; a surrogate has none. *)
Definition utf8_char (c : N) : option (list N) :=
  if c <? 128 then Some [c]
  else if c <? 2048 then Some [192 + c / 64; 128 + c mod 64]
  else if (55296 <=? c) && (c <=? 57343) then None
  else if c <? 65536
       then Some [224 + c / 4096; 128 + (c / 64) mod 64; 128 + c mod 64]
       else Some [240 + c / 262144; 128 + (c / 4096) mod 64;
                  128 + (c / 64) mod 64; 128 + c mod 64].

Fixpoint utf8 (s : str) : option (list N) :=
  match s with
  | [] => Some []
  | c :: r =>
    match utf8_char c, utf8 r with
    | Some b, Some t => Some (b ++ t)
    | _, _ => None
    end
  end.

(** [n] ASCII digits at the head of [p]: their value after [acc], and the
    rest. *)
Fixpoint parse_digits (n : nat) (p : list N) (acc : N) : option (N * list N) :=
  match n with
  | O => Some (acc, p)
  | S k =>
    match p with
    | c :: r =>
      if Dec.is_digit c then parse_digits k r (acc * 10 + (c - 48)) else None
    | [] => None
    end
  end.

(** Days before the first of January of year [y], with the divisions of C
    (the year is 0 or more). *)
Definition days_before_year (y : Z) : Z :=
  let y1 := (y - 1)%Z in
  (y1 * 365 + Z.quot y1 4 - Z.quot y1 100 + Z.quot y1 400)%Z.

(** Days of a year before the first of month [m]. *)
Definition days_before_month (y : N) (m : Z) : Z :=
  (nth (Z.to_nat m) [0; 0; 31; 59; 90; 120; 151; 181; 212; 243; 273; 304; 334]
       0
   + (if (2 <? m) && is_leap y then 1 else 0))%Z.

(** The ordinal of a day; 1 is the first of January of year 1. *)
Definition ymd_to_ord (y : N) (m d : Z) : Z :=
  (days_before_year (Z.of_N y) + days_before_month y m + d)%Z.

(** The ordinal of the Monday that starts ISO week 1 of year [y]. *)
Definition iso_week1_monday (y : N) : Z :=
  let first_day := ymd_to_ord y 1 1 in
  let first_weekday := Z.rem (first_day + 6) 7 in
  let week1_monday := (first_day - first_weekday)%Z in
  if (3 <? first_weekday)%Z then (week1_monday + 7)%Z else week1_monday.

(** The date of an ordinal that is 1 or more. *)
Definition ord_to_ymd (ordinal : Z) : Z * Z * Z :=
  let n := (ordinal - 1)%Z in
  let n400 := (n / 146097)%Z in
  let n := (n mod 146097)%Z in
  let n100 := (n / 36524)%Z in
  let n := (n mod 36524)%Z in
  let n4 := (n / 1461)%Z in
  let n := (n mod 1461)%Z in
  let n1 := (n / 365)%Z in
  let n := (n mod 365)%Z in
  let y := (n400 * 400 + 1 + n100 * 100 + n4 * 4 + n1)%Z in
  if (n1 =? 4)%Z || (n100 =? 4)%Z then ((y - 1)%Z, 12%Z, 31%Z)
  else
    let leapyear := (n1 =? 3)%Z && (negb (n4 =? 24)%Z || (n100 =? 3)%Z) in
    let m := ((n + 50) / 32)%Z in
    let preceding :=
      (nth (Z.to_nat m)
           [0; 0; 31; 59; 90; 120; 151; 181; 212; 243; 273; 304; 334] 0
       + (if (2 <? m)%Z && leapyear then 1 else 0))%Z in
    if (n <? preceding)%Z
    then
      let m' := (m - 1)%Z in
      let dim := Z.of_N (days_in_month (Z.to_N y) (Z.to_N m')) in
      (y, m', (n - (preceding - dim) + 1)%Z)
    else (y, m, (n - preceding + 1)%Z).

(** Year, week and day of the ISO calendar as a date; a week or a day out
    of range, or a day before year 1, is an error. *)
Definition iso_to_ymd (y : N) (week day_ : Z) : option (Z * Z * Z) :=
  let first_weekday := Z.rem (ymd_to_ord y 1 1 + 6) 7 in
  let week_ok :=
    ((1 <=? week) && (week <=? 52))%Z
    || ((week =? 53)%Z
        && ((first_weekday =? 3)%Z
            || ((first_weekday =? 2)%Z && is_leap y))) in
  if negb week_ok then None
  else if negb ((1 <=? day_) && (day_ <=? 7))%Z then None
  else
    let ordinal := (iso_week1_monday y + (week - 1) * 7 + day_ - 1)%Z in
    if (ordinal <? 1)%Z then None else Some (ord_to_ymd ordinal).

(** The date a text starts with: [YYYY-MM-DD], [YYYYMMDD], or a week date
    [YYYY-Www], [YYYYWww], [YYYY-Www-D], [YYYYWwwD].  What follows the date
    is not looked at. *)
Definition parse_isoformat_date (p : list N) : option (Z * Z * Z) :=
  match parse_digits 4 p 0 with
  | None => None
  | Some (y, p) =>
    let uses_separator := match p with c :: _ => c =? 45 | [] => false end in
    let p := if uses_separator then tl p else p in
    if match p with c :: _ => c =? 87 | [] => false end
    then
      match parse_digits 2 (tl p) 0 with
      | None => None
      | Some (w, p) =>
        match p with
        | [] => iso_to_ymd y (Z.of_N w) 1
        | c :: r =>
          if uses_separator && negb (c =? 45) then None
          else
            match parse_digits 1 (if uses_separator then r else p) 0 with
            | None => None
            | Some (d, _) => iso_to_ymd y (Z.of_N w) (Z.of_N d)
            end
        end
      end
    else
      match parse_digits 2 p 0 with
      | None => None
      | Some (m, p) =>
        if uses_separator
           && negb match p with c :: _ => c =? 45 | [] => false end
        then None
        else
          match parse_digits 2 (if uses_separator then tl p else p) 0 with
          | None => None
          | Some (d, _) => Some (Z.of_N y, Z.of_N m, Z.of_N d)
          end
      end
  end.

(** [date(y, m, d)]: the day has to be one of the calendar. *)
Definition check_date (ymd : Z * Z * Z) : Result Date :=
  let '(y, m, d) := ymd in
  if ((1 <=? y) && (y <=? 9999) && (1 <=? m) && (m <=? 12) && (1 <=? d)
      && (d <=? Z.of_N (days_in_month (Z.to_N y) (Z.to_N m))))%Z
  then Ok (mkDate (Z.to_N y) (Z.to_N m) (Z.to_N d))
  else Raise ValueError.

(** [date.fromisoformat(s)], as interpreters from 3.11 on read it: the
    text has 7, 8 or 10 bytes in UTF-8 and starts with a date. *)
Definition fromisoformat (s : str) : Result Date :=
  match utf8 s with
  | None => Raise ValueError
  | Some bytes =>
    let len := List.length bytes in
    if ((len =? 7) || (len =? 8) || (len =? 10))%nat
    then match parse_isoformat_date bytes with
         | Some ymd => check_date ymd
         | None => Raise ValueError
         end
    else Raise ValueError
  end.

Definition eqb (a b : Date) : bool :=
  (year a =? year b) && (month a =? month b) && (day a =? day b).

End Datetime.

(* ================================================================== *)
(** * BeautifulSoup trees *)
(* ================================================================== *)

Module Bs4.

(** A page element is a string (text, or a comment and the like, which
    [.string] and [find_all] treat alike) or a tag with its contents.  The
    BeautifulSoup object of a page is itself a tag. *)
Inductive Node : Type :=
| Text (s : str)
| Tag (name : str) (contents : list Node).

(** [n.descendants]: everything below [n], in document order. *)
Fixpoint descendants (n : Node) : list Node :=
  match n with
  | Text _ => []
  | Tag _ cs => flat_map (fun c => c :: descendants c) cs
  end.

Definition has_name (nm : str) (n : Node) : bool :=
  match n with
  | Tag t _ => str_eqb t nm
  | Text _ => false
  end.

(** [n.find_all(nm)] *)
Definition find_all (nm : str) (n : Node) : list Node :=
  filter (has_name nm) (descendants n).

(** [n.find(nm)] *)
Definition find (nm : str) (n : Node) : option Node :=
  match find_all nm n with
  | [] => None
  | x :: _ => Some x
  end.

(** [n.string]: the string of a tag with a single child, which is a string
    or a tag that has a [.string] itself; [None] otherwise. *)
Fixpoint tag_string (n : Node) : option str :=
  match n with
  | Text s => Some s
  | Tag _ cs =>
    match cs with
    | [c] => tag_string c
    | _ => None
    end
  end.

(** All strings below a node, concatenated: the text a cell shows. *)
Fixpoint get_text (n : Node) : str :=
  match n with
  | Text s => s
  | Tag _ cs => flat_map get_text cs
  end.

End Bs4.

(* ================================================================== *)
(** * What the csv writer makes of a value *)
(* ================================================================== *)

Module Output.

Import Dec Datetime.

(** Decimal digits of [c], most significant first, where [c] is at most
    [fuel]. *)
Fixpoint digits_pos (fuel : positive) (c : N) : str :=
  if c <? 10 then [48 + c]
  else match fuel with
       | xH => [48 + c mod 10]
       | xO f | xI f => digits_pos f (c / 10) ++ [48 + c mod 10]
       end.

(** [str(n)] for a natural number. *)
Definition to_digits (c : N) : str :=
  match c with
  | 0 => [48]
  | Npos p => digits_pos p c
  end.

(** ["%+d" % n] *)
Definition format_signed (n : Z) : str :=
  (if (n <? 0)%Z then 45 else 43) :: to_digits (Z.to_N (Z.abs n)).

Definition zeros (n : Z) : str := repeat 48 (Z.to_nat n).

(** [str(d)] for a decimal: plain notation when the exponent is at most 0
    and the number has fewer than six zeros after the point, scientific
    notation otherwise. *)
Definition dec_str (d : Decimal) : str :=
  match d with
  | Infinity s => (if s then [45] else []) ++ lit "Infinity"
  | NaN s sg p =>
    (if s then [45] else []) ++ (if sg then lit "sNaN" else lit "NaN")
      ++ (if p =? 0 then [] else to_digits p)
  | Finite s c e =>
    let ds := to_digits c in
    let len := Z.of_nat (List.length ds) in
    let leftdigits := (e + len)%Z in
    let dotplace :=
      if (e <=? 0)%Z && (-6 <? leftdigits)%Z then leftdigits else 1%Z in
    let intpart :=
      if (dotplace <=? 0)%Z then [48]
      else if (len <=? dotplace)%Z then ds ++ zeros (dotplace - len)
      else firstn (Z.to_nat dotplace) ds in
    let fracpart :=
      if (dotplace <=? 0)%Z then 46 :: zeros (- dotplace) ++ ds
      else if (len <=? dotplace)%Z then []
      else 46 :: skipn (Z.to_nat dotplace) ds in
    let exp_ :=
      if (leftdigits =? dotplace)%Z then []
      else 69 :: format_signed (leftdigits - dotplace) in
    (if s then [45] else []) ++ intpart ++ fracpart ++ exp_
  end.

(** [ds] with zeros in front up to [width] characters. *)
Definition pad (width : nat) (ds : str) : str :=
  repeat 48 (width - List.length ds) ++ ds.

(** [str(d)] for a date: [YYYY-MM-DD]. *)
Definition isoformat (d : Date) : str :=
  pad 4 (to_digits (year d)) ++ 45 :: pad 2 (to_digits (month d))
    ++ 45 :: pad 2 (to_digits (day d)).

(** The characters that make the writer quote a field: the delimiter, the
    quote character and those of the line terminator. *)
Definition special (c : N) : bool :=
  (c =? 44) || (c =? 34) || (c =? 13) || (c =? 10).

(** One field of a row of several fields, with minimal quoting: a field
    with a special character goes between quotes, its quotes doubled. *)
Definition csv_field (s : str) : str :=
  if existsb special s
  then 34 :: flat_map (fun c => if c =? 34 then [34; 34] else [c]) s ++ [34]
  else s.

Fixpoint join (sep : N) (fields : list str) : str :=
  match fields with
  | [] => []
  | [f] => f
  | f :: r => f ++ sep :: join sep r
  end.

(** [writer.writerow(fields)] *)
Definition csv_line (fields : list str) : str :=
  join 44 (map csv_field fields) ++ [13; 10].

End Output.

(* ================================================================== *)
(** * convert.py *)
(* ================================================================== *)

Module Convert.

Import Dec Datetime Bs4 Output.

(** [class Entry], a frozen dataclass with generated [__eq__] and
    [__hash__].  [tx_id] holds the stripped cell text. *)
Record Entry : Type := mkEntry {
  date : Date;
  memo : str;
  amount : Decimal;
  fee : Decimal;
  atm_fee : Decimal;
  conversion_fee : Decimal;
  decision : str;
  tx_id : str;
  note : str
}.

(** The field names, in declaration order: [asdict(entry).keys()]. *)
Definition field_names : list str :=
  map lit ["date"; "memo"; "amount"; "fee"; "atm_fee"; "conversion_fee";
           "decision"; "tx_id"; "note"]%string.

(** [e1 == e2]: the tuples of the nine fields are compared, field by field.
    The two entries are distinct objects whose fields are distinct objects,
    as for any two rows the script reads. *)
Definition entry_eqb (a b : Entry) : bool :=
  Datetime.eqb (date a) (date b)
  && str_eqb (memo a) (memo b)
  && Dec.eqb (amount a) (amount b)
  && Dec.eqb (fee a) (fee b)
  && Dec.eqb (atm_fee a) (atm_fee b)
  && Dec.eqb (conversion_fee a) (conversion_fee b)
  && str_eqb (decision a) (decision b)
  && str_eqb (tx_id a) (tx_id b)
  && str_eqb (note a) (note b).

(** [hash(e)] hashes the tuple of the fields. *)
Definition entry_hashable (e : Entry) : bool :=
  hashable (amount e) && hashable (fee e)
  && hashable (atm_fee e) && hashable (conversion_fee e).

(** A [set] of entries: no two members are equal.  The order of the list
    stands for the set's iteration order, which the script does not rely
    on. *)
Definition EntrySet := list Entry.

Definition set_insert (e : Entry) (s : EntrySet) : EntrySet :=
  if existsb (entry_eqb e) s then s else e :: s.

(** [s.add(e)] *)
Definition set_add (e : Entry) (s : EntrySet) : Result EntrySet :=
  if entry_hashable e then Ok (set_insert e s) else Raise TypeError.

(** [s.update(t)] for a set [t], whose members are hashable. *)
Definition set_update (s t : EntrySet) : EntrySet :=
  fold_left (fun acc e => set_insert e acc) t s.

(** The memo of a top-up, U+30C1 U+30E3 U+30FC U+30B8. *)
Definition topup : str := [12481; 12515; 12540; 12472].

(** [clean_decimal(raw, allow_null)]; [raw] is a [str] or [None]. *)
Definition clean_decimal (raw : option str) (allow_null : bool)
  : Result Decimal :=
  s <- strip_attr raw ;;
  let cleaned := remove_char 44 s in
  match cleaned with
  | _ :: _ => of_str cleaned
  | [] => if allow_null then Ok zero else Raise ValueError
  end.

(** [tds[i].string] *)
Definition cell_string (tds : list Node) (i : nat) : Result (option str) :=
  c <- index tds i ;; Ok (tag_string c).

(** [tds[i].string.strip()] *)
Definition cell_text (tds : list Node) (i : nat) : Result str :=
  x <- cell_string tds i ;; strip_attr x.

(** [tds[2].find_all("div")[1].string.strip()] *)
Definition amount_text (tds : list Node) : Result str :=
  c <- index tds 2 ;;
  d <- index (find_all (lit "div") c) 1 ;;
  strip_attr (tag_string d).

(** [clean_decimal(tds[i].string, allow_null=True)] *)
Definition fee_cell (tds : list Node) (i : nat) : Result Decimal :=
  x <- cell_string tds i ;; clean_decimal x true.

(** [amount = clean_decimal(amount_raw)], then [amount *= -1] for a
    top-up. *)
Definition signed_amount (amount_raw memo_ : str) : Result Decimal :=
  a <- clean_decimal (Some amount_raw) false ;;
  if str_eqb memo_ topup then mul a minus_one else Ok a.

(** [date.string and date.string.strip()], as a truth value. *)
Definition nonblank (x : option str) : bool :=
  match x with
  | Some s => match strip s with [] => false | _ :: _ => true end
  | None => false
  end.

(** The loop body of [read_in] from [date, *_ = row.find_all("td")] on, as
    a function of the row's cells: [Ok None] when the row is skipped by
    [continue], [Ok (Some e)] when it builds the entry [e]. *)
Definition read_cells (tds : list Node) : Result (option Entry) :=
  match tds with
  | [] => Raise ValueError
  | date_cell :: _ =>
    if negb (nonblank (tag_string date_cell)) then Ok None
    else
      date_raw <- cell_text tds 0 ;;
      amount_raw <- amount_text tds ;;
      memo_ <- cell_text tds 1 ;;
      amount_ <- signed_amount amount_raw memo_ ;;
      date_ <- fromisoformat (replace_char 47 45 date_raw) ;;
      fee_ <- fee_cell tds 3 ;;
      atm_fee_ <- fee_cell tds 4 ;;
      conversion_fee_ <- fee_cell tds 5 ;;
      decision_ <- cell_text tds 6 ;;
      tx_id_ <- cell_text tds 7 ;;
      note_ <- cell_text tds 8 ;;
      Ok (Some (mkEntry date_ memo_ amount_ fee_ atm_fee_ conversion_fee_
                        decision_ tx_id_ note_))
  end.

(** The whole loop body for one row. *)
Definition read_row (row : Node) : Result (option Entry) :=
  match find_all (lit "th") row with
  | _ :: _ => Ok None
  | [] => read_cells (find_all (lit "td") row)
  end.

(** The loop of [read_in] over the rows, with the set built so far. *)
Fixpoint read_rows (trs : list Node) (entries : EntrySet)
  : Result EntrySet :=
  match trs with
  | [] => Ok entries
  | row :: rest =>
    r <- read_row row ;;
    match r with
    | None => read_rows rest entries
    | Some e => s <- set_add e entries ;; read_rows rest s
    end
  end.

(** [read_in(fd)], from the tree of the page. *)
Definition read_in (soup : Node) : Result EntrySet :=
  match find (lit "table") soup with
  | None => Raise AttributeError
  | Some table => read_rows (find_all (lit "tr") table) []
  end.

(** The loop of [main] over the pages, with the set built so far. *)
Fixpoint read_files (files : list Node) (contents : EntrySet)
  : Result EntrySet :=
  match files with
  | [] => Ok contents
  | f :: rest =>
    s <- read_in f ;; read_files rest (set_update contents s)
  end.

(** The text of each field of [asdict(e)], as the csv writer takes it. *)
Definition field_texts (e : Entry) : list str :=
  [isoformat (date e); memo e; dec_str (amount e); dec_str (fee e);
   dec_str (atm_fee e); dec_str (conversion_fee e);
   decision e; tx_id e; note e].

(** A line of the CSV file: the header, or the line of an entry. *)
Inductive Line : Type :=
| HeaderLine (names : list str)
| EntryLine (e : Entry).

(** What is at the output path: the lines of the file, in order. *)
Definition Csv := list Line.

(** The text of a line, as [writeheader] and [writerow] hand it to the
    file. *)
Definition line_text (l : Line) : str :=
  match l with
  | HeaderLine names => csv_line names
  | EntryLine e => csv_line (field_texts e)
  end.

(** The text of the file. *)
Definition csv_text (f : Csv) : str := flat_map line_text f.

(** What the run depends on outside the script: whether the output path
    can be opened for writing, and which texts the encoding of the file
    (the default of the platform, as [open] is given none) can encode. *)
Record Platform : Type := mkPlatform {
  opens : bool;
  encodes : str -> bool
}.

(** The lines that get written, one [write] per line: the lines up to the
    first that cannot be encoded, and whether that is all of them. *)
Fixpoint write_lines (enc : str -> bool) (lines : list Line) : Csv * bool :=
  match lines with
  | [] => ([], true)
  | l :: rest =>
    if enc (line_text l)
    then let (written, ok) := write_lines enc rest in (l :: written, ok)
    else ([], false)
  end.

(** [main(args)]: [files] are the pages the glob finds, in its order, and
    [out] is what is at the output path before the run ([None]: no file).
    The result is the exit status of the script and what is at the output
    path afterwards.  An exception that leaves [main] ends the script with
    status 1.  Opening the output empties it; a line that cannot be
    encoded raises, and the file is closed with the lines before it. *)
Definition main (pf : Platform) (files : list Node) (out : option Csv)
  : Z * option Csv :=
  match read_files files [] with
  | Raise _ => (1%Z, out)
  | Ok [] => (0%Z, out)
  | Ok ((_ :: _) as contents) =>
    if opens pf then
      let (written, ok) :=
        write_lines (encodes pf)
                    (HeaderLine field_names :: map EntryLine contents) in
      ((if ok then 0 else 1)%Z, Some written)
    else (1%Z, out)
  end.

End Convert.

(* ================================================================== *)
(** * Notions the statements use, and sample pages *)
(* ================================================================== *)

Module Spec.

Import Dec Datetime Bs4 Convert.

(** Digit groups written with thousands separators: [["1"; "234"]] is
    ["1,234"]. *)
Fixpoint join_commas (gs : list str) : str :=
  match gs with
  | [] => []
  | [g] => g
  | g :: r => g ++ 44 :: join_commas r
  end.

Definition all_digits (s : str) : Prop := Forall (fun c => is_digit c = true) s.
Definition all_space (s : str) : Prop := Forall (fun c => isspace c = true) s.

(** A character of a cleaned number: a digit or the point. *)
Definition plain (c : char) : Prop := is_digit c = true \/ c = 46.

(** A decimal the default context holds as it is: a number of at most 28
    digits whose exponents are within the context's range, or an
    infinity. *)
Definition fits_context (d : Decimal) : bool :=
  match d with
  | Finite _ c e =>
    (ndigits c <=? prec)%Z && (Etiny <=? e)%Z && (e + ndigits c - 1 <=? Emax)%Z
  | Infinity _ => true
  | NaN _ _ _ => false
  end.

(** The list [l] with the element at index [k] replaced by [x]. *)
Fixpoint replace_nth {A} (k : nat) (x : A) (l : list A) : list A :=
  match l, k with
  | [], _ => []
  | _ :: r, O => x :: r
  | a :: r, S k' => a :: replace_nth k' x r
  end.

(** The coefficient with its sign. *)
Definition signed (sign : bool) (c : N) : Z :=
  if sign then (- Z.of_N c)%Z else Z.of_N c.

(** The rational number a finite decimal stands for. *)
Definition value (sign : bool) (c : N) (e : Z) : Q :=
  (inject_Z (signed sign c) * inject_Z 10 ^ e)%Q.

(** The two decimals are the same number: finite with the same value, or
    the infinity of one sign.  A NaN is not a number. *)
Definition same_number (a b : Decimal) : Prop :=
  match a, b with
  | Finite s1 c1 e1, Finite s2 c2 e2 => (value s1 c1 e1 == value s2 c2 e2)%Q
  | Infinity s1, Infinity s2 => s1 = s2
  | _, _ => False
  end.

(** The two records agree in all nine fields: the same day, the same
    texts, the same numbers. *)
Definition same_record (a b : Entry) : Prop :=
  date a = date b
  /\ memo a = memo b
  /\ same_number (amount a) (amount b)
  /\ same_number (fee a) (fee b)
  /\ same_number (atm_fee a) (atm_fee b)
  /\ same_number (conversion_fee a) (conversion_fee b)
  /\ decision a = decision b
  /\ tx_id a = tx_id b
  /\ note a = note b.

(** The sub-elements of an element: what it directly holds. *)
Definition children (n : Node) : list Node :=
  match n with
  | Text _ => []
  | Tag _ cs => cs
  end.

(** How many members of [s] equal [e]. *)
Definition count_equal (e : Entry) (s : list Entry) : nat :=
  List.length (filter (entry_eqb e) s).

(** No two members of [s] are equal. *)
Fixpoint distinct (s : list Entry) : Prop :=
  match s with
  | [] => True
  | x :: r => (forall y, In y r -> entry_eqb x y = false) /\ distinct r
  end.

End Spec.

Module Sample.

Import Dec Datetime Bs4 Convert.

Definition td (s : str) : Node := Tag (lit "td") [Text s].
Definition empty_td : Node := Tag (lit "td") [].
Definition div (s : str) : Node := Tag (lit "div") [Text s].

(** The amount cell: the balance, then the amount. *)
Definition amount_td (balance amount_ : str) : Node :=
  Tag (lit "td") [div balance; div amount_].

Definition tr (cells : list Node) : Node := Tag (lit "tr") cells.

Definition header_row : Node :=
  tr [Tag (lit "th") [Text (lit "Date")]; Tag (lit "th") [Text (lit "Memo")]].

Definition page (rows_ : list Node) : Node :=
  Tag (lit "[document]")
      [Tag (lit "html") [Tag (lit "body") [Tag (lit "table") rows_]]].

(** A data row: the date cell, then memo, amount text, fee cell,
    identifier cell; the other cells are fixed. *)
Definition data_row (date_cell : Node) (memo_ amount_ : str)
           (fee_cell_ tx_cell : Node) : Node :=
  tr [date_cell; td memo_; amount_td (lit "5,000.00") amount_; fee_cell_;
      td (lit " "); td (lit " "); td (lit "OK"); tx_cell; td (lit " ")].

Definition date_td : Node := td (lit "2023/04/01").
Definition blank_td : Node := td (lit " ").

Definition purchase_row : Node :=
  data_row date_td (lit "shop") (lit "1,000.00") blank_td (td (lit "123")).
Definition topup_row : Node :=
  data_row date_td topup (lit "1,000.00") blank_td (td (lit "123")).

(** The same purchase as [purchase_row], written with other digits. *)
Definition purchase_row' : Node :=
  data_row date_td (lit "shop") (lit "1000.0") (td (lit "0")) (td (lit " 123")).

(** A fee cell with nothing in it: [<td></td>]. *)
Definition empty_fee_row : Node :=
  data_row date_td (lit "shop") (lit "1,000.00") empty_td (td (lit "123")).

(** An identifier cell that holds a blank. *)
Definition blank_tx_row : Node :=
  data_row date_td (lit "shop") (lit "1,000.00") blank_td blank_td.

(** An amount that is blank. *)
Definition blank_amount_row : Node :=
  data_row date_td (lit "shop") (lit " ") blank_td (td (lit "123")).

(** A top-up of 29 digits. *)
Definition long_topup_row : Node :=
  data_row date_td topup (lit "12345678901234567890123456789") blank_td
           (td (lit "123")).

(** The date inside a [span]: [<td><span>2023/04/01</span></td>]. *)
Definition nested_date_td : Node :=
  Tag (lit "td") [Tag (lit "span") [Text (lit "2023/04/01")]].
Definition nested_date_row : Node :=
  data_row nested_date_td (lit "shop") (lit "1,000.00") blank_td
           (td (lit "123")).

(** The date in two pieces: [<td><b>2023</b>/04/01</td>]. *)
Definition split_date_td : Node :=
  Tag (lit "td") [Tag (lit "b") [Text (lit "2023")]; Text (lit "/04/01")].
Definition split_date_row : Node :=
  data_row split_date_td (lit "shop") (lit "1,000.00") blank_td
           (td (lit "123")).

(** A row whose first cell is blank, with data in the others. *)
Definition blank_date_row : Node :=
  data_row blank_td (lit "shop") (lit "1,000.00") blank_td (td (lit "123")).

(** A fee that reads [NaN]. *)
Definition nan_fee_row : Node :=
  data_row date_td (lit "shop") (lit "1,000.00") (td (lit "NaN"))
           (td (lit "123")).

(** A first [div] with a [div] of its own:
    [<td><div><div>9</div></div><div>7</div></td>]. *)
Definition nested_div_td : Node :=
  Tag (lit "td") [Tag (lit "div") [div (lit "9")]; div (lit "7")].
Definition nested_div_row : Node :=
  tr [date_td; td (lit "shop"); nested_div_td; blank_td;
      td (lit " "); td (lit " "); td (lit "OK"); td (lit "123"); td (lit " ")].

(** A date that names no day: the 30th of February. *)
Definition no_such_day_row : Node :=
  data_row (td (lit "2023/02/30")) (lit "shop") (lit "1,000.00") blank_td
           (td (lit "123")).

(** A memo that ASCII cannot encode. *)
Definition kanji_row : Node :=
  data_row date_td [24215] (lit "1,000.00") blank_td (td (lit "123")).

Definition topup_entry : Entry :=
  mkEntry (mkDate 2023 4 1) topup (Finite true 100000 (-2))
          zero zero zero (lit "OK") (lit "123") [].

Definition purchase_entry' : Entry :=
  mkEntry (mkDate 2023 4 1) (lit "shop") (Finite false 10000 (-1))
          zero zero zero (lit "OK") (lit "123") [].

Definition purchase_entry : Entry :=
  mkEntry (mkDate 2023 4 1) (lit "shop") (Finite false 100000 (-2))
          zero zero zero (lit "OK") (lit "123") [].

Definition nan_fee_entry : Entry :=
  mkEntry (mkDate 2023 4 1) (lit "shop") (Finite false 100000 (-2))
          (NaN false false 0) zero zero (lit "OK") (lit "123") [].

Definition nested_div_entry : Entry :=
  mkEntry (mkDate 2023 4 1) (lit "shop") (Finite false 9 0)
          zero zero zero (lit "OK") (lit "123") [].

Definition kanji_entry : Entry :=
  mkEntry (mkDate 2023 4 1) [24215] (Finite false 100000 (-2))
          zero zero zero (lit "OK") (lit "123") [].

(** A platform that writes UTF-8 to a path it can open: every text but one
    with a surrogate can be encoded. *)
Definition utf8_platform : Platform :=
  mkPlatform true
    (fun s => forallb (fun c => negb ((55296 <=? c) && (c <=? 57343))) s).

(** A platform whose default encoding is ASCII (the C locale). *)
Definition ascii_platform : Platform :=
  mkPlatform true (fun s => forallb (fun c => c <? 128) s).

(** A platform on which the output path cannot be opened for writing. *)
Definition closed_platform : Platform :=
  mkPlatform false (fun _ => true).

End Sample.

Module Props.

Import Dec Datetime Bs4 Convert.

Definition is_nan (d : Decimal) : bool :=
  match d with
  | NaN _ _ _ => true
  | _ => false
  end.

(** Some decimal field of the entry is a NaN. *)
Definition has_nan (e : Entry) : bool :=
  is_nan (amount e) || is_nan (fee e) || is_nan (atm_fee e)
  || is_nan (conversion_fee e).

(** A number written without needless zeros in front: digits, the first of
    which is not ['0']. *)
Definition leading (ds : str) : Prop :=
  Forall (fun c => is_digit c = true) ds
  /\ match ds with
     | [] => False
     | c :: _ => c <> 48
     end.

(** The fractional part of a number text: none, or a point and digits. *)
Definition fraction (fp : option str) : str :=
  match fp with
  | None => []
  | Some f => 46 :: f
  end.

(** The fractional part as it is written back: a point only before
    digits. *)
Definition fraction_out (fp : option str) : str :=
  match fp with
  | Some ((_ :: _) as f) => 46 :: f
  | _ => []
  end.

Definition fraction_digits (fp : option str) : str :=
  match fp with
  | None => []
  | Some f => f
  end.

(** A date of the calendar. *)
Definition valid_date (d : Date) : Prop :=
  1 <= year d <= 9999 /\ 1 <= month d <= 12
  /\ 1 <= day d <= days_in_month (year d) (month d).

(** A text without a character that makes the writer quote it. *)
Definition unquoted (s : str) : Prop :=
  Forall (fun c => Output.special c = false) s.

(** The row raises, or builds an entry that cannot be hashed. *)
Definition row_fails (row : Node) : Prop :=
  (exists err, read_row row = Raise err)
  \/ (exists e, read_row row = Ok (Some e) /\ entry_hashable e = false).

End Props.

(* ================================================================== *)
(** * Results and exceptions *)
(* ================================================================== *)

Import Dec Datetime Bs4 Convert Spec Output Props.

Lemma bind_ok {A B} (m : Result A) (f : A -> Result B) (b : B) :
  bind m f = Ok b -> exists a, m = Ok a /\ f a = Ok b.
Proof.
  destruct m as [a|e]; simpl; intros H.
  - exists a; split; [reflexivity | exact H].
  - discriminate H.
Qed.

Lemma bind_raise_l {A B} (m : Result A) (f : A -> Result B) (e : Exn) :
  m = Raise e -> bind m f = Raise e.
Proof. intros ->; reflexivity. Qed.

Lemma bind_ok_l {A B} (m : Result A) (f : A -> Result B) (a : A) :
  m = Ok a -> bind m f = f a.
Proof. intros ->; reflexivity. Qed.

(** Split a successful chain of binds into its steps. *)
Ltac inv_bind H :=
  let a := fresh "v" in
  let Ha := fresh "Hv" in
  apply bind_ok in H; destruct H as (a & Ha & H).

Lemma index_ok {A} (l : list A) (i : nat) (a : A) :
  index l i = Ok a <-> nth_error l i = Some a.
Proof.
  unfold index; destruct (nth_error l i); split; intros H;
    try discriminate; congruence.
Qed.

Lemma strip_attr_ok (x : option str) (t : str) :
  strip_attr x = Ok t -> exists s, x = Some s /\ t = strip s.
Proof.
  destruct x as [s|]; simpl; intros H; [|discriminate].
  exists s; split; congruence.
Qed.

Lemma cell_text_ok (tds : list Node) (i : nat) (t : str) :
  cell_text tds i = Ok t ->
  exists c s, nth_error tds i = Some c /\ tag_string c = Some s /\ t = strip s.
Proof.
  unfold cell_text, cell_string; intros H.
  inv_bind H. inv_bind Hv. apply index_ok in Hv0.
  apply strip_attr_ok in H as (s & Hs & Ht).
  exists v0, s; repeat split; congruence.
Qed.

(* ================================================================== *)
(** * Rows that are skipped *)
(* ================================================================== *)

(** A tag that has a [.string] shows exactly that string as its text. *)
Lemma tag_string_get_text : forall (n : Node) (s : str),
  tag_string n = Some s -> get_text n = s.
Proof.
  fix IH 1. intros [s0 | nm cs] s H.
  - simpl in *. congruence.
  - destruct cs as [| c [| c' r]]; simpl in H; try discriminate H.
    simpl. rewrite app_nil_r. apply IH. exact H.
Qed.

Lemma tag_string_children (nm : str) (cs : list Node) :
  List.length cs <> 1%nat -> tag_string (Tag nm cs) = None.
Proof.
  destruct cs as [| c [| c' r]]; simpl; intros H;
    [reflexivity | contradiction H; reflexivity | reflexivity].
Qed.

Lemma nonblank_false_of_text (c : Node) :
  strip (get_text c) = [] -> nonblank (tag_string c) = false.
Proof.
  intros Hblank. unfold nonblank.
  destruct (tag_string c) as [s|] eqn:Hs; [|reflexivity].
  apply tag_string_get_text in Hs. rewrite Hs in Hblank.
  rewrite Hblank. reflexivity.
Qed.

Lemma read_cells_skip (c : Node) (rest : list Node) :
  nonblank (tag_string c) = false -> read_cells (c :: rest) = Ok None.
Proof. intros H. unfold read_cells. rewrite H. reflexivity. Qed.

(** C6. A row that holds a header cell, or whose first data cell shows
    only blank text, is skipped: it gives no record and no error, whatever
    its other cells hold. *)
Theorem header_or_blank_row_skipped (row : Node) :
  (find_all (lit "th") row <> []
   \/ exists c rest, find_all (lit "td") row = c :: rest
                     /\ strip (get_text c) = []) ->
  read_row row = Ok None.
Proof.
  intros H. unfold read_row.
  destruct (find_all (lit "th") row) as [| h hs] eqn:Hth; [|reflexivity].
  destruct H as [H | (c & rest & Htd & Hblank)].
  - contradiction H. reflexivity.
  - rewrite Htd. apply read_cells_skip.
    apply nonblank_false_of_text. exact Hblank.
Qed.

Lemma header_or_blank_row_skipped_witness :
  read_row Sample.header_row = Ok None
  /\ read_row Sample.blank_date_row = Ok None.
Proof.
  split.
  - apply header_or_blank_row_skipped. left. vm_compute. discriminate.
  - apply header_or_blank_row_skipped. right.
    eexists; eexists; split; vm_compute; reflexivity.
Defined.

(** C10, as the code has it.  A row whose first data cell has no [.string]
    (the cell is empty or has several children, or its only child is such
    a tag) is skipped like a blank one, whatever its other cells hold. *)
Theorem stringless_first_cell_skipped (row c : Node) (rest : list Node) :
  find_all (lit "td") row = c :: rest ->
  tag_string c = None ->
  read_row row = Ok None.
Proof.
  intros Htd Hnone. unfold read_row.
  destruct (find_all (lit "th") row); [|reflexivity].
  rewrite Htd. apply read_cells_skip. rewrite Hnone. reflexivity.
Qed.

Lemma stringless_first_cell_skipped_witness :
  read_row Sample.split_date_row = Ok None.
Proof.
  eapply stringless_first_cell_skipped; vm_compute; reflexivity.
Defined.

(** C10, as stated, fails: a first cell with nested markup whose only
    child chain leads to one string has that string as its [.string], and
    the row is read. *)
Lemma nested_first_cell_is_read :
  hd_error (find_all (lit "td") Sample.nested_date_row)
    = Some (Tag (lit "td") [Tag (lit "span") [Text (lit "2023/04/01")]])
  /\ read_row Sample.nested_date_row = Ok (Some Sample.purchase_entry).
Proof. split; vm_compute; reflexivity. Qed.

(* ================================================================== *)
(** * The run: [main] *)
(* ================================================================== *)

Lemma set_update_nil_r (s : EntrySet) : set_update s [] = s.
Proof. reflexivity. Qed.

Lemma read_files_all_empty (files : list Node) :
  (forall f, In f files -> read_in f = Ok []) ->
  read_files files [] = Ok [].
Proof.
  induction files as [| f rest IH]; intros H; simpl.
  - reflexivity.
  - rewrite (H f (or_introl eq_refl)). simpl.
    apply IH. intros g Hg. apply H. right. exact Hg.
Qed.

(** C7. When the union of the per-page sets is empty -- there is no page,
    or no page has a data row -- the run leaves the output path as it was
    and ends with status 0. *)
Theorem empty_union_writes_nothing
        (pf : Platform) (files : list Node) (out : option Csv) :
  (read_files files [] = Ok []
   \/ forall f, In f files -> read_in f = Ok []) ->
  main pf files out = (0%Z, out).
Proof.
  intros [H | H].
  - unfold main. rewrite H. reflexivity.
  - unfold main. rewrite (read_files_all_empty files H). reflexivity.
Qed.

Lemma empty_union_writes_nothing_witness :
  main Sample.utf8_platform [] None = (0%Z, None)
  /\ main Sample.closed_platform
          [Sample.page [Sample.header_row];
           Sample.page [Sample.header_row; Sample.blank_date_row]] None
     = (0%Z, None).
Proof.
  split.
  - apply empty_union_writes_nothing. right. intros f [].
  - apply empty_union_writes_nothing. left. vm_compute. reflexivity.
Defined.

Lemma read_files_raise (files : list Node) (f : Node) (e : Exn) :
  In f files -> read_in f = Raise e ->
  forall acc, exists e', read_files files acc = Raise e'.
Proof.
  induction files as [| g rest IH]; intros Hin Hf acc.
  - destruct Hin.
  - simpl. destruct (read_in g) as [s | e0] eqn:Hg.
    + simpl. destruct Hin as [-> | Hin].
      * rewrite Hf in Hg. discriminate Hg.
      * apply IH; assumption.
    + exists e0. reflexivity.
Qed.

(** C9. When reading any page raises an error, the run ends with a
    non-zero status and the output path is left as it was: every page is
    read into the set before the output is opened. *)
Theorem parse_error_leaves_output
        (pf : Platform) (files : list Node) (out : option Csv)
        (f : Node) (e : Exn) :
  In f files -> read_in f = Raise e ->
  fst (main pf files out) <> 0%Z /\ snd (main pf files out) = out.
Proof.
  intros Hin Hf.
  destruct (read_files_raise files f Hin Hf []) as (e' & He').
  unfold main. rewrite He'. simpl. split; [discriminate | reflexivity].
Qed.

Lemma parse_error_leaves_output_witness :
  fst (main Sample.utf8_platform
            [Sample.page [Sample.purchase_row];
             Sample.page [Sample.blank_amount_row]] None) <> 0%Z
  /\ snd (main Sample.utf8_platform
               [Sample.page [Sample.purchase_row];
                Sample.page [Sample.blank_amount_row]] None) = None.
Proof.
  apply (@parse_error_leaves_output Sample.utf8_platform _ None
           (Sample.page [Sample.blank_amount_row]) ValueError).
  - simpl. right. left. reflexivity.
  - vm_compute. reflexivity.
Defined.

(* ================================================================== *)
(** * Rows that build an entry *)
(* ================================================================== *)

(** What a row that builds an entry went through, step by step. *)
Lemma read_cells_entry (tds : list Node) (e : Entry) :
  read_cells tds = Ok (Some e) ->
  exists date_cell rest date_raw amount_raw,
    tds = date_cell :: rest
    /\ nonblank (tag_string date_cell) = true
    /\ cell_text tds 0 = Ok date_raw
    /\ amount_text tds = Ok amount_raw
    /\ cell_text tds 1 = Ok (memo e)
    /\ signed_amount amount_raw (memo e) = Ok (amount e)
    /\ fromisoformat (replace_char 47 45 date_raw) = Ok (date e)
    /\ fee_cell tds 3 = Ok (fee e)
    /\ fee_cell tds 4 = Ok (atm_fee e)
    /\ fee_cell tds 5 = Ok (conversion_fee e)
    /\ cell_text tds 6 = Ok (decision e)
    /\ cell_text tds 7 = Ok (tx_id e)
    /\ cell_text tds 8 = Ok (note e).
Proof.
  intros H. unfold read_cells in H.
  destruct tds as [| date_cell rest]; [discriminate H|].
  destruct (nonblank (tag_string date_cell)) eqn:Hnb; simpl in H;
    [|discriminate H].
  do 11 inv_bind H.
  injection H as <-. simpl.
  exists date_cell, rest, v, v0. repeat split; assumption.
Qed.

Lemma read_row_entry (row : Node) (e : Entry) :
  read_row row = Ok (Some e) ->
  find_all (lit "th") row = []
  /\ read_cells (find_all (lit "td") row) = Ok (Some e).
Proof.
  unfold read_row. destruct (find_all (lit "th") row).
  - intros H; split; [reflexivity | exact H].
  - discriminate.
Qed.

(** Rebuilding the entry from its steps. *)
Lemma read_cells_build (tds rest : list Node) (date_cell : Node)
      (date_raw amount_raw : str) (e : Entry) :
  tds = date_cell :: rest ->
  nonblank (tag_string date_cell) = true ->
  cell_text tds 0 = Ok date_raw ->
  amount_text tds = Ok amount_raw ->
  cell_text tds 1 = Ok (memo e) ->
  signed_amount amount_raw (memo e) = Ok (amount e) ->
  fromisoformat (replace_char 47 45 date_raw) = Ok (date e) ->
  fee_cell tds 3 = Ok (fee e) ->
  fee_cell tds 4 = Ok (atm_fee e) ->
  fee_cell tds 5 = Ok (conversion_fee e) ->
  cell_text tds 6 = Ok (decision e) ->
  cell_text tds 7 = Ok (tx_id e) ->
  cell_text tds 8 = Ok (note e) ->
  read_cells tds = Ok (Some e).
Proof.
  intros Htds Hnb H0 Ha H1 Hs Hd H3 H4 H5 H6 H7 H8.
  unfold read_cells. rewrite Htds, <- Htds, Hnb. simpl.
  rewrite H0; simpl. rewrite Ha; simpl. rewrite H1; simpl.
  rewrite Hs; simpl. rewrite Hd; simpl. rewrite H3; simpl.
  rewrite H4; simpl. rewrite H5; simpl. rewrite H6; simpl.
  rewrite H7; simpl. rewrite H8; simpl.
  destruct e; reflexivity.
Qed.

(** ** Replacing one cell *)

Lemma nth_error_replace_other {A} (k i : nat) (x : A) (l : list A) :
  i <> k -> nth_error (replace_nth k x l) i = nth_error l i.
Proof.
  revert k i. induction l as [| a r IH]; intros k i Hik.
  - destruct k; reflexivity.
  - destruct k as [| k'], i as [| i']; simpl; try reflexivity.
    + contradiction Hik; reflexivity.
    + apply IH. intros ->. apply Hik. reflexivity.
Qed.

Lemma nth_error_replace_same {A} (k : nat) (x a : A) (l : list A) :
  nth_error l k = Some a -> nth_error (replace_nth k x l) k = Some x.
Proof.
  revert k. induction l as [| b r IH]; intros [| k'] H; simpl in *;
    try discriminate H; [reflexivity | apply IH; exact H].
Qed.

Lemma index_replace_other {A} (k i : nat) (x : A) (l : list A) :
  i <> k -> index (replace_nth k x l) i = index l i.
Proof.
  intros H. unfold index. rewrite nth_error_replace_other by exact H.
  reflexivity.
Qed.

Lemma cell_text_replace_other (k i : nat) (x : Node) (tds : list Node) :
  i <> k -> cell_text (replace_nth k x tds) i = cell_text tds i.
Proof.
  intros H. unfold cell_text, cell_string.
  rewrite index_replace_other by exact H. reflexivity.
Qed.

Lemma fee_cell_replace_other (k i : nat) (x : Node) (tds : list Node) :
  i <> k -> fee_cell (replace_nth k x tds) i = fee_cell tds i.
Proof.
  intros H. unfold fee_cell, cell_string.
  rewrite index_replace_other by exact H. reflexivity.
Qed.

Lemma amount_text_replace_other (k : nat) (x : Node) (tds : list Node) :
  k <> 2%nat -> amount_text (replace_nth k x tds) = amount_text tds.
Proof.
  intros H. unfold amount_text.
  rewrite index_replace_other by (intros E; apply H; symmetry; exact E).
  reflexivity.
Qed.

Lemma cell_text_replace_same (k : nat) (x : Node) (tds : list Node)
      (t s : str) :
  cell_text tds k = Ok t -> tag_string x = Some s ->
  cell_text (replace_nth k x tds) k = Ok (strip s).
Proof.
  intros Ht Hs. apply cell_text_ok in Ht as (c & s0 & Hc & _ & _).
  unfold cell_text, cell_string, index.
  rewrite (nth_error_replace_same k x tds Hc). simpl. rewrite Hs.
  reflexivity.
Qed.

Lemma replace_nth_cons {A} (k : nat) (x a : A) (l : list A) :
  replace_nth (S k) x (a :: l) = a :: replace_nth k x l.
Proof. reflexivity. Qed.

(* ================================================================== *)
(** * Decimals in the default context *)
(* ================================================================== *)

Lemma ndigits_pos_pos (fuel : positive) (c : N) : 1 <= ndigits_pos fuel c.
Proof.
  destruct fuel; cbn [ndigits_pos]; destruct (c <? 10); lia.
Qed.

(** [ndigits_pos] counts the digits: [10^(d-1) <= c < 10^d]. *)
Lemma ndigits_pos_spec (fuel : positive) :
  forall c, 0 < c -> c <= Npos fuel ->
  10 ^ (ndigits_pos fuel c - 1) <= c < 10 ^ ndigits_pos fuel c.
Proof.
  assert (forall f c, 10 <= c -> c <= 2 * Npos f + 1 ->
            (0 < c / 10 -> c / 10 <= Npos f ->
             10 ^ (ndigits_pos f (c / 10) - 1) <= c / 10
             < 10 ^ ndigits_pos f (c / 10)) ->
            10 ^ (1 + ndigits_pos f (c / 10) - 1) <= c
            < 10 ^ (1 + ndigits_pos f (c / 10))) as Hstep.
  { intros f c Hc Hle IH.
    pose proof (N.Div0.div_mod c 10) as Hq1.
    pose proof (N.mod_lt c 10 ltac:(discriminate)) as Hq2.
    pose proof (ndigits_pos_pos f (c / 10)) as Hd.
    set (q := c / 10) in *. set (r := c mod 10) in *. clearbody q r.
    destruct IH as [IH1 IH2]; [lia | lia |].
    replace (1 + ndigits_pos f q - 1)
      with (N.succ (ndigits_pos f q - 1)) by lia.
    replace (1 + ndigits_pos f q) with (N.succ (ndigits_pos f q)) by lia.
    rewrite !N.pow_succ_r'. lia. }
  induction fuel as [f IH | f IH |]; intros c Hpos Hle;
    cbn [ndigits_pos]; destruct (N.ltb_spec c 10) as [Hlt | Hge];
    try (change (10 ^ (1 - 1)) with 1; change (10 ^ 1) with 10; lia).
  - apply Hstep; [exact Hge | lia | apply IH].
  - apply Hstep; [exact Hge | lia | apply IH].
Qed.

(** At most 28 digits: below [10^28]. *)
Lemma ndigits_le_prec (c : N) : (ndigits c <= prec)%Z <-> c < 10 ^ 28.
Proof.
  destruct c as [| p]; [split; intros _; [reflexivity | discriminate]|].
  unfold ndigits, prec.
  destruct (@ndigits_pos_spec p (N.pos p) ltac:(reflexivity) (N.le_refl _))
    as [Hlo Hhi].
  pose proof (ndigits_pos_pos p (N.pos p)) as Hd.
  split; intros H.
  - eapply N.lt_le_trans; [exact Hhi|].
    apply N.pow_le_mono_r; [discriminate | lia].
  - assert (10 ^ (ndigits_pos p (N.pos p) - 1) < 10 ^ 28) as Hlt
        by (eapply N.le_lt_trans; eassumption).
    apply N.pow_lt_mono_r_iff in Hlt; [lia | reflexivity].
Qed.

(** Multiplying by [-1] flips the sign, and nothing else, of a decimal the
    context holds as it is. *)
Lemma mul_minus_one_fits (d : Decimal) :
  fits_context d = true -> mul d minus_one = Ok (negate d).
Proof.
  destruct d as [s c e | s | s sg p]; simpl; intros Hfit.
  - apply andb_prop in Hfit as [Hfit Hmax].
    apply andb_prop in Hfit as [Hprec Htiny].
    apply Z.leb_le in Hprec, Htiny, Hmax.
    rewrite N.mul_1_r, Z.add_0_r, xorb_true_r.
    unfold fix_finite.
    destruct (c =? 0) eqn:Hc.
    + apply N.eqb_eq in Hc. subst c.
      change (ndigits 0) with 1%Z in Hmax.
      f_equal. f_equal. lia.
    + replace (Etop <? ndigits c + e - prec)%Z with false
        by (symmetry; apply Z.ltb_ge; unfold Etop, Emax, prec in *; lia).
      replace (e <? Z.max (ndigits c + e - prec) Etiny)%Z with false
        by (symmetry; apply Z.ltb_ge; lia).
      reflexivity.
  - rewrite xorb_true_r. reflexivity.
  - discriminate Hfit.
Qed.

Lemma signed_amount_ok (amount_raw memo_ : str) (a : Decimal) :
  signed_amount amount_raw memo_ = Ok a ->
  exists v, clean_decimal (Some amount_raw) false = Ok v
            /\ (if str_eqb memo_ topup then mul v minus_one = Ok a
                else a = v).
Proof.
  unfold signed_amount. intros H. inv_bind H. exists v. split; [exact Hv|].
  destruct (str_eqb memo_ topup); [exact H | congruence].
Qed.

Lemma str_eqb_eq (a b : str) : str_eqb a b = true <-> a = b.
Proof.
  unfold str_eqb. destruct (list_eq_dec N.eq_dec a b); split; intros H;
    try reflexivity; try assumption; try discriminate; contradiction.
Qed.

(** C1, as the code has it.  The memo of the entry is the stripped text of
    the memo cell.  For a top-up the amount is the parsed decimal times
    [-1] in the default context, which is its negation whenever the parsed
    decimal is an infinity or a number of at most 28 digits within the
    context's exponent range; for any other memo it is the parsed decimal
    itself. *)
Theorem sign_rule (row : Node) (e : Entry) :
  read_row row = Ok (Some e) ->
  exists raw v,
    cell_text (find_all (lit "td") row) 1 = Ok (memo e)
    /\ amount_text (find_all (lit "td") row) = Ok raw
    /\ clean_decimal (Some raw) false = Ok v
    /\ (memo e = topup ->
        mul v minus_one = Ok (amount e)
        /\ (fits_context v = true -> amount e = negate v))
    /\ (memo e <> topup -> amount e = v).
Proof.
  intros H. apply read_row_entry in H as [_ H].
  apply read_cells_entry in H
    as (dc & rest & draw & raw & _ & _ & _ & Hraw & Hmemo & Hamt & _).
  apply signed_amount_ok in Hamt as (v & Hv & Hsign).
  exists raw, v. repeat split; try assumption.
  - assert (str_eqb (memo e) topup = true) as E by (apply str_eqb_eq; assumption).
    rewrite E in Hsign. exact Hsign.
  - intros Hfit.
    assert (str_eqb (memo e) topup = true) as E by (apply str_eqb_eq; assumption).
    rewrite E in Hsign. rewrite (mul_minus_one_fits v Hfit) in Hsign.
    congruence.
  - intros Hne. destruct (str_eqb (memo e) topup) eqn:E.
    + apply str_eqb_eq in E. contradiction.
    + exact Hsign.
Qed.

Lemma sign_rule_witness :
  exists raw v,
    cell_text (find_all (lit "td") Sample.topup_row) 1 = Ok topup
    /\ amount_text (find_all (lit "td") Sample.topup_row) = Ok raw
    /\ clean_decimal (Some raw) false = Ok v
    /\ (topup = topup ->
        mul v minus_one = Ok (Finite true 100000 (-2))
        /\ (fits_context v = true -> Finite true 100000 (-2) = negate v))
    /\ (topup <> topup -> Finite true 100000 (-2) = v).
Proof.
  apply (@sign_rule Sample.topup_row Sample.topup_entry).
  vm_compute. reflexivity.
Defined.

(** C1, as stated, fails: the amount of a top-up of 29 digits is rounded
    to 28 digits, and is not the negation of the parsed decimal. *)
Lemma long_topup_is_rounded :
  amount_text (find_all (lit "td") Sample.long_topup_row)
    = Ok (lit "12345678901234567890123456789")
  /\ clean_decimal (Some (lit "12345678901234567890123456789")) false
     = Ok (Finite false 12345678901234567890123456789 0)
  /\ read_row Sample.long_topup_row
     = Ok (Some (mkEntry (mkDate 2023 4 1) topup
                         (Finite true 1234567890123456789012345679 1)
                         zero zero zero (lit "OK") (lit "123") []))
  /\ Dec.eqb (Finite true 1234567890123456789012345679 1)
             (negate (Finite false 12345678901234567890123456789 0))
     = false.
Proof. repeat split; vm_compute; reflexivity. Qed.

(* ================================================================== *)
(** * The amount cell *)
(* ================================================================== *)

Lemma amount_text_ok (tds : list Node) (raw : str) :
  amount_text tds = Ok raw ->
  exists cell d1 d2 rest s,
    nth_error tds 2 = Some cell
    /\ find_all (lit "div") cell = d1 :: d2 :: rest
    /\ tag_string d2 = Some s
    /\ raw = strip s.
Proof.
  unfold amount_text. intros H. inv_bind H. inv_bind H.
  apply index_ok in Hv, Hv0.
  apply strip_attr_ok in H as (s & Hs & Hraw).
  destruct (find_all (lit "div") v) as [| d1 [| d2 rest]] eqn:Hdivs;
    try discriminate Hv0.
  simpl in Hv0. injection Hv0 as ->.
  exists v, d1, v0, rest, s. repeat split; assumption.
Qed.

Lemma amount_text_replace (tds : list Node) (cell cell' d1 d2 : Node)
      (rest : list Node) (s : str) :
  nth_error tds 2 = Some cell ->
  find_all (lit "div") cell' = d1 :: d2 :: rest ->
  tag_string d2 = Some s ->
  amount_text (replace_nth 2 cell' tds) = Ok (strip s).
Proof.
  intros Hcell Hdivs Hs. unfold amount_text, index.
  rewrite (nth_error_replace_same 2 cell' tds Hcell). simpl.
  rewrite Hdivs. simpl. rewrite Hs. reflexivity.
Qed.

(** What [find_all] finds below a tag, child by child: the child itself
    when it has the name, then what is found below it. *)
Lemma find_all_children (nm t : str) (cs : list Node) :
  find_all nm (Tag t cs)
  = flat_map (fun c => (if has_name nm c then [c] else []) ++ find_all nm c)
             cs.
Proof.
  unfold find_all. simpl.
  induction cs as [| c r IH]; simpl; [reflexivity|].
  rewrite filter_app, IH.
  destruct (has_name nm c); reflexivity.
Qed.

Lemma flat_map_nil {A B} (f : A -> list B) (l : list A) :
  (forall x, In x l -> f x = []) -> flat_map f l = [].
Proof.
  induction l as [| a r IH]; intros H; simpl; [reflexivity|].
  rewrite (H a (or_introl eq_refl)), IH; [reflexivity|].
  intros x Hx. apply H. right. exact Hx.
Qed.

(** C5. The amount of an entry is read from the second [div] that is found
    below the third cell of the row, in document order; nothing else of
    that cell is used: with any other third cell whose second [div] holds
    the same text, the row builds the same entry.  That [div] is the second
    [div] the cell holds itself when nothing before it in the cell has a
    [div] inside; when the first [div] of the cell has one inside, it is
    that inner [div]. *)
Theorem amount_read_from_second_div (row : Node) (e : Entry) :
  read_row row = Ok (Some e) ->
  exists cell d1 d2 rest s,
    nth_error (find_all (lit "td") row) 2 = Some cell
    /\ find_all (lit "div") cell = d1 :: d2 :: rest
    /\ tag_string d2 = Some s
    /\ signed_amount (strip s) (memo e) = Ok (amount e)
    /\ (forall cell' d1' d2' rest' s',
          find_all (lit "div") cell' = d1' :: d2' :: rest' ->
          tag_string d2' = Some s' ->
          strip s' = strip s ->
          read_cells (replace_nth 2 cell' (find_all (lit "td") row))
          = Ok (Some e))
    /\ (forall pre a mid b post,
          children cell = pre ++ a :: mid ++ b :: post ->
          has_name (lit "div") a = true ->
          has_name (lit "div") b = true ->
          (forall x, In x (pre ++ mid) -> has_name (lit "div") x = false) ->
          (forall x, In x (pre ++ a :: mid) -> find_all (lit "div") x = []) ->
          d1 = a /\ d2 = b)
    /\ (forall pre a post x r,
          children cell = pre ++ a :: post ->
          has_name (lit "div") a = true ->
          (forall y, In y pre ->
             has_name (lit "div") y = false
             /\ find_all (lit "div") y = []) ->
          find_all (lit "div") a = x :: r ->
          d1 = a /\ d2 = x).
Proof.
  intros H. apply read_row_entry in H as [_ H].
  apply read_cells_entry in H
    as (dc & tl & draw & raw & Htds & Hnb & H0 & Hraw & H1 & Hamt & Hd
        & H3 & H4 & H5 & H6 & H7 & H8).
  destruct (amount_text_ok _ Hraw) as (cell & d1 & d2 & rest & s
                                       & Hcell & Hdivs & Hs & Hrs).
  exists cell, d1, d2, rest, s.
  split; [exact Hcell|]. split; [exact Hdivs|]. split; [exact Hs|].
  split; [rewrite <- Hrs; exact Hamt|].
  split; [|split].
  - intros cell' d1' d2' rest' s' Hdivs' Hs' Hsame.
    apply read_cells_build with (rest := replace_nth 1 cell' tl)
                                (date_cell := dc) (date_raw := draw)
                                (amount_raw := raw).
    + rewrite Htds. reflexivity.
    + exact Hnb.
    + rewrite cell_text_replace_other by discriminate. exact H0.
    + rewrite (amount_text_replace _ _ Hcell Hdivs' Hs').
      rewrite Hsame, Hrs. reflexivity.
    + rewrite cell_text_replace_other by discriminate. exact H1.
    + exact Hamt.
    + exact Hd.
    + rewrite fee_cell_replace_other by discriminate. exact H3.
    + rewrite fee_cell_replace_other by discriminate. exact H4.
    + rewrite fee_cell_replace_other by discriminate. exact H5.
    + rewrite cell_text_replace_other by discriminate. exact H6.
    + rewrite cell_text_replace_other by discriminate. exact H7.
    + rewrite cell_text_replace_other by discriminate. exact H8.
  - intros pre a mid b post Hch Ha Hb Hnames Hinner.
    destruct cell as [t | t cs]; [discriminate Hdivs|].
    simpl in Hch. subst cs.
    rewrite find_all_children in Hdivs.
    rewrite flat_map_app in Hdivs. cbn [flat_map] in Hdivs.
    rewrite flat_map_app in Hdivs. cbn [flat_map] in Hdivs.
    rewrite (@flat_map_nil _ _ _ pre) in Hdivs.
    2:{ intros x Hx.
        rewrite (Hnames x (in_or_app _ _ _ (or_introl Hx))).
        rewrite (Hinner x (in_or_app _ _ _ (or_introl Hx))). reflexivity. }
    rewrite (@flat_map_nil _ _ _ mid) in Hdivs.
    2:{ intros x Hx.
        rewrite (Hnames x (in_or_app _ _ _ (or_intror Hx))).
        rewrite (Hinner x (in_or_app pre (a :: mid) x
                                     (or_intror (or_intror Hx)))).
        reflexivity. }
    rewrite Ha, Hb in Hdivs.
    rewrite (Hinner a (in_or_app pre (a :: mid) a
                                 (or_intror (or_introl eq_refl))))
      in Hdivs.
    simpl in Hdivs. injection Hdivs as <- <- _. split; reflexivity.
  - intros pre a post x r Hch Ha Hpre Hinner.
    destruct cell as [t | t cs]; [discriminate Hdivs|].
    simpl in Hch. subst cs.
    rewrite find_all_children in Hdivs.
    rewrite flat_map_app in Hdivs. cbn [flat_map] in Hdivs.
    rewrite (@flat_map_nil _ _ _ pre) in Hdivs.
    2:{ intros y Hy. destruct (Hpre y Hy) as [-> ->]. reflexivity. }
    rewrite Ha, Hinner in Hdivs.
    simpl in Hdivs. injection Hdivs as <- <- _. split; reflexivity.
Qed.

Lemma amount_read_from_second_div_witness :
  exists cell d1 d2 rest s,
    nth_error (find_all (lit "td") Sample.purchase_row) 2 = Some cell
    /\ find_all (lit "div") cell = d1 :: d2 :: rest
    /\ tag_string d2 = Some s
    /\ signed_amount (strip s) (memo Sample.purchase_entry)
       = Ok (amount Sample.purchase_entry)
    /\ (forall cell' d1' d2' rest' s',
          find_all (lit "div") cell' = d1' :: d2' :: rest' ->
          tag_string d2' = Some s' ->
          strip s' = strip s ->
          read_cells (replace_nth 2 cell'
                                  (find_all (lit "td") Sample.purchase_row))
          = Ok (Some Sample.purchase_entry))
    /\ (forall pre a mid b post,
          children cell = pre ++ a :: mid ++ b :: post ->
          has_name (lit "div") a = true ->
          has_name (lit "div") b = true ->
          (forall x, In x (pre ++ mid) -> has_name (lit "div") x = false) ->
          (forall x, In x (pre ++ a :: mid) -> find_all (lit "div") x = []) ->
          d1 = a /\ d2 = b)
    /\ (forall pre a post x r,
          children cell = pre ++ a :: post ->
          has_name (lit "div") a = true ->
          (forall y, In y pre ->
             has_name (lit "div") y = false
             /\ find_all (lit "div") y = []) ->
          find_all (lit "div") a = x :: r ->
          d1 = a /\ d2 = x).
Proof.
  apply (@amount_read_from_second_div Sample.purchase_row Sample.purchase_entry).
  vm_compute. reflexivity.
Defined.

(** A third cell whose first [div] holds a [div]:
    [<td><div><div>9</div></div><div>7</div></td>].  The amount is 9, the
    text inside the first sub-element of the cell and the string of that
    sub-element; the second sub-element, which reads 7, is not used. *)
Lemma amount_read_inside_first_div :
  read_row Sample.nested_div_row = Ok (Some Sample.nested_div_entry)
  /\ nth_error (find_all (lit "td") Sample.nested_div_row) 2
     = Some Sample.nested_div_td
  /\ children Sample.nested_div_td
     = [Tag (lit "div") [Sample.div (lit "9")]; Sample.div (lit "7")]
  /\ tag_string (Tag (lit "div") [Sample.div (lit "9")]) = Some (lit "9")
  /\ tag_string (Sample.div (lit "7")) = Some (lit "7")
  /\ amount Sample.nested_div_entry = Finite false 9 0
  /\ clean_decimal (Some (lit "7")) false = Ok (Finite false 7 0).
Proof. repeat split; vm_compute; reflexivity. Qed.

(* ================================================================== *)
(** * Blank cells *)
(* ================================================================== *)

Lemma clean_decimal_blank (s : str) (allow_null : bool) :
  strip s = [] ->
  clean_decimal (Some s) allow_null
  = if allow_null then Ok zero else Raise ValueError.
Proof.
  intros H. unfold clean_decimal. simpl. rewrite H. reflexivity.
Qed.

Lemma strip_nil : strip [] = [].
Proof. reflexivity. Qed.

(** A fee cell whose string is blank reads as zero. *)
Lemma fee_cell_blank (tds : list Node) (i : nat) (c : Node) (s : str) :
  nth_error tds i = Some c -> tag_string c = Some s -> strip s = [] ->
  fee_cell tds i = Ok zero.
Proof.
  intros Hc Hs Hblank. unfold fee_cell, cell_string, index.
  rewrite Hc. simpl. rewrite Hs.
  rewrite (clean_decimal_blank s true Hblank). reflexivity.
Qed.

(** A fee cell without a string raises. *)
Lemma fee_cell_stringless (tds : list Node) (i : nat) (c : Node) :
  nth_error tds i = Some c -> tag_string c = None ->
  fee_cell tds i = Raise AttributeError.
Proof.
  intros Hc Hs. unfold fee_cell, cell_string, index.
  rewrite Hc. simpl. rewrite Hs. reflexivity.
Qed.

(** C3 on the code: a row whose fee cell is [<td></td>] raises, where the
    same row with a blank in the fee cell builds an entry with fee zero. *)
Theorem empty_fee_cell_raises :
  nth_error (find_all (lit "td") Sample.empty_fee_row) 3
    = Some (Tag (lit "td") [])
  /\ read_row Sample.empty_fee_row = Raise AttributeError
  /\ read_row Sample.purchase_row = Ok (Some Sample.purchase_entry).
Proof. repeat split; vm_compute; reflexivity. Qed.

(** C4, as the code has it.  In a row that is not skipped, an amount text
    that is blank after stripping raises an error, and a fee cell whose
    string is blank reads as zero without one. *)
Theorem blank_amount_raises (row : Node) :
  (read_row row <> Ok None ->
   amount_text (find_all (lit "td") row) = Ok [] ->
   exists err, read_row row = Raise err)
  /\ (forall i c s,
        nth_error (find_all (lit "td") row) i = Some c ->
        tag_string c = Some s -> strip s = [] ->
        fee_cell (find_all (lit "td") row) i = Ok zero).
Proof.
  split.
  - intros Hskip Hblank.
    destruct (read_row row) as [[e |] | err] eqn:Hrow.
    + exfalso.
      apply read_row_entry in Hrow as [_ H].
      apply read_cells_entry in H
        as (dc & tl & draw & raw & _ & _ & _ & Hraw & _ & Hamt & _).
      rewrite Hblank in Hraw. injection Hraw as <-.
      unfold signed_amount in Hamt.
      rewrite (clean_decimal_blank [] false strip_nil) in Hamt.
      discriminate Hamt.
    + contradiction Hskip. reflexivity.
    + exists err. reflexivity.
  - intros i c s. apply fee_cell_blank.
Qed.

Lemma blank_amount_raises_witness :
  (exists err, read_row Sample.blank_amount_row = Raise err)
  /\ fee_cell (find_all (lit "td") Sample.purchase_row) 3 = Ok zero.
Proof.
  split.
  - apply (proj1 (blank_amount_raises Sample.blank_amount_row)).
    + vm_compute. discriminate.
    + vm_compute. reflexivity.
  - apply (proj2 (blank_amount_raises Sample.purchase_row)
             3%nat Sample.blank_td (lit " ")); vm_compute; reflexivity.
Defined.

(** C4, as stated, fails: a row whose identifier cell holds a blank builds
    an entry, with an empty identifier. *)
Lemma blank_identifier_is_accepted :
  cell_text (find_all (lit "td") Sample.blank_tx_row) 7 = Ok []
  /\ read_row Sample.blank_tx_row
     = Ok (Some (mkEntry (mkDate 2023 4 1) (lit "shop")
                         (Finite false 100000 (-2)) zero zero zero
                         (lit "OK") [] [])).
Proof. split; vm_compute; reflexivity. Qed.

(* ================================================================== *)
(** * Numbers of the form X,XXX.XX *)
(* ================================================================== *)

(** Decide the comparisons of a goal by arithmetic. *)
Ltac bool_N :=
  repeat match goal with
         | |- context [?a <=? ?b] => destruct (N.leb_spec a b); try lia
         | |- context [?a <? ?b] => destruct (N.ltb_spec a b); try lia
         | |- context [?a =? ?b] => destruct (N.eqb_spec a b); try lia
         end.

Lemma is_digit_range (c : char) : is_digit c = true <-> 48 <= c <= 57.
Proof.
  unfold is_digit. rewrite andb_true_iff, !N.leb_le. reflexivity.
Qed.

Lemma plain_range (c : char) : plain c -> 46 <= c <= 57.
Proof. intros [H | ->]; [apply is_digit_range in H|]; lia. Qed.

Lemma range_not_space (c : char) : 44 <= c <= 57 -> isspace c = false.
Proof. intros H. unfold isspace. bool_N; reflexivity. Qed.

Lemma lstrip_spaces (ws s : str) :
  all_space ws -> lstrip (ws ++ s) = lstrip s.
Proof.
  induction 1 as [| c ws Hc _ IH]; simpl; [reflexivity|].
  rewrite Hc. exact IH.
Qed.

Lemma lstrip_fixed (s : str) :
  Forall (fun c => isspace c = false) s -> lstrip s = s.
Proof.
  destruct 1 as [| c s Hc _]; simpl; [reflexivity|]. rewrite Hc. reflexivity.
Qed.

(** Stripping removes the white space around a text without any. *)
Lemma strip_padded (ws1 body ws2 : str) :
  all_space ws1 -> all_space ws2 ->
  Forall (fun c => isspace c = false) body ->
  strip (ws1 ++ body ++ ws2) = body.
Proof.
  intros H1 H2 Hb. unfold strip, rstrip.
  rewrite (lstrip_spaces _ H1).
  assert (lstrip (rev ws2 ++ rev body) = rev body) as Hrev.
  { rewrite lstrip_spaces by (apply Forall_rev; exact H2).
    apply lstrip_fixed. apply Forall_rev. exact Hb. }
  destruct body as [| c b].
  - simpl. rewrite <- (app_nil_r ws2) at 1.
    rewrite (lstrip_spaces _ H2). reflexivity.
  - replace (lstrip ((c :: b) ++ ws2)) with ((c :: b) ++ ws2).
    + rewrite rev_app_distr, Hrev. apply rev_involutive.
    + simpl. inversion Hb as [| ? ? Hc _]; subst. rewrite Hc. reflexivity.
Qed.

Lemma remove_comma_fixed (s : str) :
  Forall (fun c => c <> 44) s -> remove_char 44 s = s.
Proof.
  induction 1 as [| c s Hc _ IH]; simpl; [reflexivity|].
  destruct (N.eqb_spec c 44); [contradiction|]. simpl. f_equal. exact IH.
Qed.

Lemma digits_no_comma (s : str) : all_digits s -> Forall (fun c => c <> 44) s.
Proof.
  apply Forall_impl. intros c H. apply is_digit_range in H. lia.
Qed.

Lemma remove_comma_join (gs : list str) :
  Forall all_digits gs -> remove_char 44 (join_commas gs) = List.concat gs.
Proof.
  induction 1 as [| g gs Hg Hgs IH]; [reflexivity|].
  pose proof (remove_comma_fixed (digits_no_comma Hg)) as Eg.
  destruct gs as [| g' gs'].
  - simpl. rewrite app_nil_r. exact Eg.
  - change (join_commas (g :: g' :: gs'))
      with (g ++ 44 :: join_commas (g' :: gs')).
    assert (forall t, remove_char 44 (44 :: t) = remove_char 44 t) as E44
        by reflexivity.
    unfold remove_char in *. rewrite filter_app, Eg, E44, IH. reflexivity.
Qed.

Lemma join_commas_chars (gs : list str) :
  Forall all_digits gs -> Forall (fun c => 44 <= c <= 57) (join_commas gs).
Proof.
  assert (forall g, all_digits g -> Forall (fun c => 44 <= c <= 57) g) as Hd.
  { intros g. apply Forall_impl. intros c H. apply is_digit_range in H. lia. }
  induction 1 as [| g gs Hg Hgs IH]; [constructor|].
  destruct gs as [| g' gs']; [apply Hd; exact Hg|].
  change (join_commas (g :: g' :: gs'))
    with (g ++ 44 :: join_commas (g' :: gs')).
  apply Forall_app. split; [apply Hd; exact Hg|].
  constructor; [lia | exact IH].
Qed.

(** The constructor's rewriting leaves a cleaned number as it is. *)
Lemma numeric_as_ascii_plain (s : str) :
  Forall plain s -> numeric_as_ascii s = Some s.
Proof.
  induction 1 as [| c s Hc _ IH]; simpl; [reflexivity|].
  apply plain_range in Hc. rewrite IH. bool_N; reflexivity.
Qed.

Lemma span_digits_app (ds rest : str) :
  all_digits ds -> span_digits rest = ([], rest) ->
  span_digits (ds ++ rest) = (ds, rest).
Proof.
  intros Hds Hrest. induction Hds as [| c ds Hc _ IH]; simpl.
  - exact Hrest.
  - rewrite Hc, IH. reflexivity.
Qed.

Lemma span_digits_all (ds : str) : all_digits ds -> span_digits ds = (ds, []).
Proof.
  intros H. rewrite <- (app_nil_r ds) at 1.
  apply span_digits_app; [exact H | reflexivity].
Qed.

Lemma digits_value_from (ds : str) (a : N) :
  fold_left (fun acc c => acc * 10 + (c - 48)) ds a
  = a * 10 ^ N.of_nat (List.length ds) + digits_value ds.
Proof.
  unfold digits_value. revert a.
  induction ds as [| c ds IH]; intros a.
  - simpl. lia.
  - cbn [fold_left List.length]. rewrite IH, (IH (0 * 10 + (c - 48))).
    rewrite Nnat.Nat2N.inj_succ, N.pow_succ_r'. lia.
Qed.

(** The digits before and after the point weigh as they should. *)
Lemma digits_value_app (ip fp : str) :
  digits_value (ip ++ fp)
  = digits_value ip * 10 ^ N.of_nat (List.length fp) + digits_value fp.
Proof.
  unfold digits_value at 1. rewrite fold_left_app.
  apply digits_value_from.
Qed.

(** Digits, a point, digits: the decimal with exactly these digits. *)
Lemma parse_ascii_plain (ip fp : str) :
  ip <> [] -> all_digits ip -> all_digits fp ->
  parse_ascii (ip ++ 46 :: fp)
  = Some (Finite false (digits_value (ip ++ fp))
                 (- Z.of_nat (List.length fp))).
Proof.
  intros Hne Hip Hfp.
  destruct ip as [| c0 ip']; [contradiction Hne; reflexivity|].
  pose proof (Forall_inv Hip) as Hc0. apply is_digit_range in Hc0.
  assert (lower c0 = c0) as Hlow by (unfold lower; bool_N; reflexivity).
  unfold parse_ascii.
  replace (parse_sign ((c0 :: ip') ++ 46 :: fp))
    with (false, (c0 :: ip') ++ 46 :: fp)
    by (simpl; bool_N; reflexivity).
  cbn [lit list_ascii_of_string map N_of_ascii N_of_digits app
       strip_prefix_ci].
  rewrite Hlow.
  replace (c0 =? _) with false by (symmetry; apply N.eqb_neq; cbn; lia).
  replace (c0 =? _) with false by (symmetry; apply N.eqb_neq; cbn; lia).
  replace (c0 =? _) with false by (symmetry; apply N.eqb_neq; cbn; lia).
  unfold parse_number.
  change (c0 :: ip' ++ 46 :: fp) with ((c0 :: ip') ++ 46 :: fp).
  rewrite (span_digits_app (rest := 46 :: fp) Hip) by reflexivity.
  cbn [N.eqb Pos.eqb]. rewrite (span_digits_all Hfp).
  cbn [app parse_exponent]. reflexivity.
Qed.

Lemma plain_number (ip fp : str) :
  all_digits ip -> all_digits fp -> Forall plain (ip ++ 46 :: fp).
Proof.
  intros Hip Hfp. apply Forall_app. split.
  - revert Hip. apply Forall_impl. intros c H. left. exact H.
  - constructor; [right; reflexivity|].
    revert Hfp. apply Forall_impl. intros c H. left. exact H.
Qed.

Lemma plain_not_space (s : str) :
  Forall plain s -> Forall (fun c => isspace c = false) s.
Proof.
  apply Forall_impl. intros c H. apply plain_range in H.
  apply range_not_space. lia.
Qed.

(** [Decimal(s)] of digits, a point, digits. *)
Lemma of_str_plain (ip fp : str) :
  ip <> [] -> all_digits ip -> all_digits fp ->
  of_str (ip ++ 46 :: fp)
  = Ok (Finite false (digits_value (ip ++ fp)) (- Z.of_nat (List.length fp))).
Proof.
  intros Hne Hip Hfp. unfold of_str.
  pose proof (plain_number Hip Hfp) as Hplain.
  pose proof (strip_padded (ws1 := []) (ws2 := [])
                (Forall_nil _) (Forall_nil _) (plain_not_space Hplain)) as Hs.
  simpl in Hs. rewrite app_nil_r in Hs. rewrite Hs.
  rewrite (numeric_as_ascii_plain Hplain).
  rewrite (parse_ascii_plain Hne Hip Hfp). reflexivity.
Qed.

(** C8. A cell text of the form X,XXX.XX -- groups of digits, with or
    without separating commas, a point, digits, white space around it --
    is cleaned and parsed to the decimal with exactly these digits: the
    coefficient is the integer part shifted by the number of fractional
    digits plus the fractional part, and the exponent is minus the number
    of fractional digits.  ["1,234.56"] gives 123456 * 10^-2. *)
Theorem grouped_number_parses_exactly
        (gs : list str) (fp ws1 ws2 : str) (allow_null : bool) :
  List.concat gs <> [] -> Forall all_digits gs -> all_digits fp ->
  all_space ws1 -> all_space ws2 ->
  clean_decimal (Some (ws1 ++ (join_commas gs ++ 46 :: fp) ++ ws2)) allow_null
  = Ok (Finite false
               (digits_value (List.concat gs)
                  * 10 ^ N.of_nat (List.length fp) + digits_value fp)
               (- Z.of_nat (List.length fp))).
Proof.
  intros Hne Hgs Hfp Hws1 Hws2.
  assert (all_digits (List.concat gs)) as Hip.
  { clear Hne. induction Hgs as [| g gs Hg _ IH]; simpl.
    - constructor.
    - apply Forall_app. split; assumption. }
  assert (Forall (fun c => isspace c = false) (join_commas gs ++ 46 :: fp))
    as Hbody.
  { apply Forall_app. split.
    - generalize (join_commas_chars Hgs). apply Forall_impl.
      intros c H. apply range_not_space. exact H.
    - constructor; [reflexivity|].
      revert Hfp. apply Forall_impl. intros c H.
      apply is_digit_range in H. apply range_not_space. lia. }
  unfold clean_decimal. simpl bind.
  rewrite (strip_padded Hws1 Hws2 Hbody).
  unfold remove_char. rewrite filter_app. fold (remove_char 44 (join_commas gs)).
  rewrite (remove_comma_join Hgs).
  assert (remove_char 44 (46 :: fp) = 46 :: fp) as Efp.
  { apply remove_comma_fixed. constructor; [discriminate|].
    apply digits_no_comma. exact Hfp. }
  unfold remove_char in Efp. rewrite Efp.
  rewrite <- digits_value_app.
  rewrite <- (of_str_plain Hne Hip Hfp).
  destruct (List.concat gs) as [| c ip'] eqn:E; [contradiction Hne; reflexivity|].
  reflexivity.
Qed.

Lemma grouped_number_parses_exactly_witness :
  clean_decimal (Some (lit "1,234.56")) false
  = Ok (Finite false 123456 (-2)).
Proof.
  apply (@grouped_number_parses_exactly
           [lit "1"; lit "234"] (lit "56") [] [] false).
  - discriminate.
  - repeat constructor.
  - repeat constructor.
  - constructor.
  - constructor.
Defined.

(* ================================================================== *)
(** * Equality of entries *)
(* ================================================================== *)

Lemma date_eqb_eq (a b : Date) : Datetime.eqb a b = true <-> a = b.
Proof.
  unfold Datetime.eqb. destruct a as [y m d], b as [y' m' d']; simpl.
  rewrite !andb_true_iff, !N.eqb_eq. split.
  - intros [[-> ->] ->]. reflexivity.
  - intros E. injection E as -> -> ->. repeat split.
Qed.

(** Scaling both sides by a power of ten keeps an equation. *)
Lemma pow10_shift (c1 c2 : N) (e1 e2 m m' : Z) :
  (m' <= m)%Z -> (m <= e1)%Z -> (m <= e2)%Z ->
  (c1 * 10 ^ Z.to_N (e1 - m) = c2 * 10 ^ Z.to_N (e2 - m)
   <-> c1 * 10 ^ Z.to_N (e1 - m') = c2 * 10 ^ Z.to_N (e2 - m')).
Proof.
  intros Hm H1 H2.
  replace (e1 - m')%Z with ((e1 - m) + (m - m'))%Z by lia.
  replace (e2 - m')%Z with ((e2 - m) + (m - m'))%Z by lia.
  rewrite !Z2N.inj_add by lia. rewrite !N.pow_add_r, !N.mul_assoc.
  split; intros H.
  - rewrite H. reflexivity.
  - apply N.mul_cancel_r in H; [exact H|].
    apply N.pow_nonzero. discriminate.
Qed.

Lemma dec_eqb_sym (a b : Decimal) : Dec.eqb a b = Dec.eqb b a.
Proof.
  destruct a as [s1 c1 e1 | s1 | s1 g1 p1], b as [s2 c2 e2 | s2 | s2 g2 p2];
    simpl; try reflexivity.
  - destruct (N.eqb_spec c1 0), (N.eqb_spec c2 0); try reflexivity.
    rewrite (Z.min_comm e2 e1), (N.eqb_sym (c2 * _)).
    destruct s1, s2; reflexivity.
  - destruct s1, s2; reflexivity.
Qed.

Lemma dec_eqb_trans (a b c : Decimal) :
  Dec.eqb a b = true -> Dec.eqb b c = true -> Dec.eqb a c = true.
Proof.
  destruct a as [s1 c1 e1 | s1 | s1 g1 p1], b as [s2 c2 e2 | s2 | s2 g2 p2],
           c as [s3 c3 e3 | s3 | s3 g3 p3]; simpl; try discriminate.
  - destruct (N.eqb_spec c1 0) as [-> | H1].
    + intros E2. apply N.eqb_eq in E2. subst c2. simpl. trivial.
    + destruct (N.eqb_spec c2 0) as [-> | H2]; [discriminate|].
      destruct (N.eqb_spec c3 0) as [-> | H3]; [trivial|].
      rewrite !andb_true_iff, !N.eqb_eq, !eqb_true_iff.
      intros [-> E12] [-> E23]. split; [reflexivity|].
      set (m := Z.min e1 (Z.min e2 e3)).
      apply (@pow10_shift c1 c2 e1 e2 (Z.min e1 e2) m) in E12;
        try (unfold m; lia).
      apply (@pow10_shift c2 c3 e2 e3 (Z.min e2 e3) m) in E23;
        try (unfold m; lia).
      apply (@pow10_shift c1 c3 e1 e3 (Z.min e1 e3) m);
        try (unfold m; lia).
      congruence.
  - rewrite !eqb_true_iff. congruence.
Qed.

Lemma ten_nonzero : ~ (inject_Z 10 == 0)%Q.
Proof. intros H. discriminate H. Qed.

(** The value over a common exponent [m] below [e]. *)
Lemma value_shift (s : bool) (c : N) (e m : Z) :
  (m <= e)%Z ->
  (value s c e
   == inject_Z (signed s (c * 10 ^ Z.to_N (e - m))) * inject_Z 10 ^ m)%Q.
Proof.
  intros Hm. unfold value.
  replace e with ((e - m) + m)%Z at 1 by lia.
  rewrite Qpower_plus by exact ten_nonzero.
  rewrite <- (Zpower_Qpower 10 (e - m)) by lia.
  rewrite Qmult_assoc, <- inject_Z_mult.
  replace (signed s (c * 10 ^ Z.to_N (e - m)))
    with (signed s c * 10 ^ (e - m))%Z; [reflexivity|].
  unfold signed. rewrite N2Z.inj_mul, N2Z.inj_pow, Z2N.id by lia.
  change (Z.of_N 10) with 10%Z. destruct s; lia.
Qed.

Lemma signed_inj (s1 s2 : bool) (c1 c2 : N) :
  c1 <> 0 -> c2 <> 0 ->
  (signed s1 c1 = signed s2 c2 <-> s1 = s2 /\ c1 = c2).
Proof.
  intros H1 H2. unfold signed. destruct s1, s2; split;
    try (intros [E ->]; try discriminate E; reflexivity); intros E;
    try (split; [reflexivity | lia]); exfalso; lia.
Qed.

Lemma value_zero (s : bool) (c : N) (e : Z) :
  (value s c e == 0)%Q <-> c = 0.
Proof.
  unfold value. split.
  - intros H. apply Qmult_integral in H as [H | H].
    + unfold Qeq, signed in H. simpl in H. destruct s; lia.
    + exfalso. exact (Qpower_not_0 _ e ten_nonzero H).
  - intros ->. destruct s; apply Qmult_0_l.
Qed.

Lemma dec_eqb_same_number (a b : Decimal) :
  Dec.eqb a b = true <-> same_number a b.
Proof.
  destruct a as [s1 c1 e1 | s1 | s1 g1 p1], b as [s2 c2 e2 | s2 | s2 g2 p2];
    simpl; try (split; [discriminate | contradiction]).
  - destruct (N.eqb_spec c1 0) as [-> | H1].
    + rewrite N.eqb_eq. split.
      * intros ->. rewrite (proj2 (@value_zero s1 0 e1) eq_refl),
                           (proj2 (@value_zero s2 0 e2) eq_refl). reflexivity.
      * intros H. rewrite (proj2 (@value_zero s1 0 e1) eq_refl) in H.
        symmetry in H. apply value_zero in H. exact H.
    + destruct (N.eqb_spec c2 0) as [-> | H2].
      * split; [discriminate|]. intros H.
        rewrite (proj2 (@value_zero s2 0 e2) eq_refl) in H.
        apply value_zero in H. contradiction.
      * set (m := Z.min e1 e2).
        rewrite (@value_shift s1 c1 e1 m), (@value_shift s2 c2 e2 m)
          by (unfold m; lia).
        rewrite (Qmult_inj_r _ _ _ (Qpower_not_0 _ m ten_nonzero)).
        rewrite inject_Z_injective, signed_inj.
        -- rewrite andb_true_iff, N.eqb_eq, eqb_true_iff. reflexivity.
        -- apply N.neq_mul_0. split; [exact H1|].
           apply N.pow_nonzero. discriminate.
        -- apply N.neq_mul_0. split; [exact H2|].
           apply N.pow_nonzero. discriminate.
  - apply eqb_true_iff.
Qed.

(** Entries are equal exactly when their nine fields are. *)
Lemma entry_eqb_fields (a b : Entry) :
  entry_eqb a b = true <->
  (Datetime.eqb (date a) (date b) = true
   /\ str_eqb (memo a) (memo b) = true
   /\ Dec.eqb (amount a) (amount b) = true
   /\ Dec.eqb (fee a) (fee b) = true
   /\ Dec.eqb (atm_fee a) (atm_fee b) = true
   /\ Dec.eqb (conversion_fee a) (conversion_fee b) = true
   /\ str_eqb (decision a) (decision b) = true
   /\ str_eqb (tx_id a) (tx_id b) = true
   /\ str_eqb (note a) (note b) = true).
Proof.
  unfold entry_eqb. rewrite !andb_true_iff. tauto.
Qed.

Lemma entry_eqb_sym (a b : Entry) :
  entry_eqb a b = true -> entry_eqb b a = true.
Proof.
  rewrite !entry_eqb_fields. rewrite !date_eqb_eq, !str_eqb_eq.
  rewrite (dec_eqb_sym (amount b)), (dec_eqb_sym (fee b)),
          (dec_eqb_sym (atm_fee b)), (dec_eqb_sym (conversion_fee b)).
  intuition congruence.
Qed.

Lemma entry_eqb_trans (a b c : Entry) :
  entry_eqb a b = true -> entry_eqb b c = true -> entry_eqb a c = true.
Proof.
  rewrite !entry_eqb_fields. rewrite !date_eqb_eq, !str_eqb_eq.
  intros (H1 & H2 & H3 & H4 & H5 & H6 & H7 & H8 & H9)
         (G1 & G2 & G3 & G4 & G5 & G6 & G7 & G8 & G9).
  repeat split; try congruence; eapply dec_eqb_trans; eassumption.
Qed.

(* ================================================================== *)
(** * Sets of entries *)
(* ================================================================== *)

Lemma existsb_false_all (e : Entry) (s : EntrySet) :
  existsb (entry_eqb e) s = false ->
  forall y, In y s -> entry_eqb e y = false.
Proof.
  intros H y Hy. destruct (entry_eqb e y) eqn:E; [|reflexivity].
  assert (existsb (entry_eqb e) s = true) as C
      by (apply existsb_exists; exists y; split; assumption).
  congruence.
Qed.

Lemma set_insert_distinct (e : Entry) (s : EntrySet) :
  distinct s -> distinct (set_insert e s).
Proof.
  intros Hs. unfold set_insert.
  destruct (existsb (entry_eqb e) s) eqn:E; [exact Hs|].
  split; [apply existsb_false_all; exact E | exact Hs].
Qed.

(** A member equal to [e] stays, or [e] itself comes in. *)
Lemma set_insert_covers (e x : Entry) (s : EntrySet) :
  existsb (entry_eqb x) s = true ->
  existsb (entry_eqb x) (set_insert e s) = true.
Proof.
  intros H. unfold set_insert.
  destruct (existsb (entry_eqb e) s); [exact H|].
  simpl. rewrite H. apply orb_true_r.
Qed.

Lemma set_insert_covers_new (e x : Entry) (s : EntrySet) :
  entry_eqb x e = true ->
  existsb (entry_eqb x) (set_insert e s) = true.
Proof.
  intros Hxe. unfold set_insert.
  destruct (existsb (entry_eqb e) s) eqn:E.
  - apply existsb_exists in E as (y & Hy & Hey).
    apply existsb_exists. exists y. split; [exact Hy|].
    eapply entry_eqb_trans; eassumption.
  - simpl. rewrite Hxe. reflexivity.
Qed.

Lemma set_update_distinct (t s : EntrySet) :
  distinct s -> distinct (set_update s t).
Proof.
  unfold set_update. revert s.
  induction t as [| e t IH]; intros s Hs; simpl; [exact Hs|].
  apply IH. apply set_insert_distinct. exact Hs.
Qed.

Lemma set_update_covers (t s : EntrySet) (x : Entry) :
  existsb (entry_eqb x) s = true ->
  existsb (entry_eqb x) (set_update s t) = true.
Proof.
  unfold set_update. revert s.
  induction t as [| e t IH]; intros s Hs; simpl; [exact Hs|].
  apply IH. apply set_insert_covers. exact Hs.
Qed.

Lemma set_update_covers_new (t s : EntrySet) (x e : Entry) :
  In e t -> entry_eqb x e = true ->
  existsb (entry_eqb x) (set_update s t) = true.
Proof.
  unfold set_update. revert s.
  induction t as [| e' t IH]; intros s Hin Hxe; simpl; [destruct Hin|].
  destruct Hin as [-> | Hin].
  - apply (set_update_covers t). apply set_insert_covers_new. exact Hxe.
  - apply IH; assumption.
Qed.

Lemma read_files_distinct (files : list Node) (acc contents : EntrySet) :
  distinct acc -> read_files files acc = Ok contents -> distinct contents.
Proof.
  revert acc. induction files as [| f rest IH]; intros acc Hacc H; simpl in H.
  - congruence.
  - inv_bind H. apply (IH _ (set_update_distinct v acc Hacc) H).
Qed.

Lemma read_files_covers_acc (files : list Node) (acc contents : EntrySet)
      (x : Entry) :
  existsb (entry_eqb x) acc = true ->
  read_files files acc = Ok contents ->
  existsb (entry_eqb x) contents = true.
Proof.
  revert acc. induction files as [| f rest IH]; intros acc Hacc H; simpl in H.
  - congruence.
  - inv_bind H. apply (IH _ (set_update_covers v acc x Hacc) H).
Qed.

Lemma read_files_covers (files : list Node) (acc contents s : EntrySet)
      (f : Node) (x e : Entry) :
  In f files -> read_in f = Ok s -> In e s -> entry_eqb x e = true ->
  read_files files acc = Ok contents ->
  existsb (entry_eqb x) contents = true.
Proof.
  revert acc. induction files as [| g rest IH]; intros acc Hin Hf He Hxe H.
  - destruct Hin.
  - simpl in H. inv_bind H. destruct Hin as [-> | Hin].
    + rewrite Hf in Hv. injection Hv as <-.
      apply (read_files_covers_acc rest (set_update acc s) x); [|exact H].
      apply (set_update_covers_new s acc x e He Hxe).
    + apply (IH (set_update acc v)); assumption.
Qed.

(** In a set, at most one member equals a given entry. *)
Lemma distinct_count_le (x : Entry) (s : EntrySet) :
  distinct s -> (count_equal x s <= 1)%nat.
Proof.
  unfold count_equal. induction s as [| y s IH]; intros Hs; simpl; [lia|].
  destruct Hs as [Hy Hs]. specialize (IH Hs).
  destruct (entry_eqb x y) eqn:Exy; [|exact IH].
  assert (filter (entry_eqb x) s = []) as ->; [|simpl; lia].
  destruct (filter (entry_eqb x) s) as [| z l] eqn:Ef; [reflexivity|].
  assert (In z (filter (entry_eqb x) s)) as Hz by (rewrite Ef; left; reflexivity).
  apply filter_In in Hz as [Hzs Hxz].
  assert (entry_eqb y z = true) as C
      by (eapply entry_eqb_trans; [apply entry_eqb_sym|]; eassumption).
  rewrite (Hy z Hzs) in C. discriminate C.
Qed.

Lemma covered_count_ge (x : Entry) (s : EntrySet) :
  existsb (entry_eqb x) s = true -> (1 <= count_equal x s)%nat.
Proof.
  intros H. apply existsb_exists in H as (y & Hy & Hxy).
  unfold count_equal.
  assert (In y (filter (entry_eqb x) s)) as Hin
      by (apply filter_In; split; assumption).
  destruct (filter (entry_eqb x) s); [destruct Hin | simpl; lia].
Qed.

Lemma read_files_total (files : list Node) :
  (forall f, In f files -> exists s, read_in f = Ok s) ->
  forall acc, exists contents, read_files files acc = Ok contents.
Proof.
  induction files as [| f rest IH]; intros Hall acc; simpl.
  - exists acc. reflexivity.
  - destruct (Hall f (or_introl eq_refl)) as (s & Hs). rewrite Hs. simpl.
    apply IH. intros g Hg. apply Hall. right. exact Hg.
Qed.

Lemma count_equal_congr (x y : Entry) (s : EntrySet) :
  entry_eqb x y = true -> count_equal x s = count_equal y s.
Proof.
  intros Hxy. unfold count_equal. f_equal. apply filter_ext.
  intros z. destruct (entry_eqb x z) eqn:Ex, (entry_eqb y z) eqn:Ey;
    try reflexivity.
  - assert (entry_eqb y z = true) as C
        by (eapply entry_eqb_trans; [apply entry_eqb_sym|]; eassumption).
    congruence.
  - assert (entry_eqb x z = true) as C
        by (eapply entry_eqb_trans; eassumption).
    congruence.
Qed.

(** The equality of entries is agreement in all nine fields. *)
Lemma entry_eqb_same_record (a b : Entry) :
  entry_eqb a b = true <-> same_record a b.
Proof.
  rewrite entry_eqb_fields. unfold same_record.
  rewrite date_eqb_eq, !str_eqb_eq, !dec_eqb_same_number. reflexivity.
Qed.

Lemma entry_eqb_not_same (a b : Entry) :
  entry_eqb a b = false -> ~ same_record a b.
Proof.
  intros H C. apply entry_eqb_same_record in C. congruence.
Qed.

(** A list in which one member equals [e] splits around that member. *)
Lemma count_one_split (e : Entry) (s : list Entry) :
  count_equal e s = 1%nat ->
  exists l1 x l2,
    s = l1 ++ x :: l2 /\ entry_eqb e x = true
    /\ forall y, In y (l1 ++ l2) -> entry_eqb e y = false.
Proof.
  unfold count_equal. induction s as [| y s IH]; simpl; [discriminate|].
  destruct (entry_eqb e y) eqn:Ey; simpl.
  - intros H. exists [], y, s. repeat split; [exact Ey|].
    intros z Hz. simpl in Hz.
    destruct (entry_eqb e z) eqn:Ez; [|reflexivity].
    assert (In z (filter (entry_eqb e) s)) as Hin
        by (apply filter_In; split; assumption).
    destruct (filter (entry_eqb e) s); [destruct Hin | discriminate H].
  - intros H. destruct (IH H) as (l1 & x & l2 & -> & Hx & Hrest).
    exists (y :: l1), x, l2. repeat split; [exact Hx|].
    intros z [<- | Hz]; [exact Ey | apply Hrest; exact Hz].
Qed.

(** When every line can be encoded, every line is written. *)
Lemma write_lines_all (enc : str -> bool) (lines : list Line) :
  (forall l, In l lines -> enc (line_text l) = true) ->
  write_lines enc lines = (lines, true).
Proof.
  induction lines as [| l rest IH]; intros H; simpl; [reflexivity|].
  rewrite (H l (or_introl eq_refl)).
  rewrite IH; [reflexivity|]. intros x Hx. apply H. right. exact Hx.
Qed.

(** What is written is the lines up to the first that cannot be
    encoded. *)
Lemma write_lines_prefix (enc : str -> bool) (lines written : list Line)
      (ok : bool) :
  write_lines enc lines = (written, ok) ->
  exists rest,
    lines = written ++ rest
    /\ Forall (fun l => enc (line_text l) = true) written
    /\ (ok = true <-> rest = [])
    /\ match rest with
       | [] => True
       | l :: _ => enc (line_text l) = false
       end.
Proof.
  revert written ok.
  induction lines as [| l rest IH]; intros written ok H; simpl in H.
  - injection H as <- <-. exists []. repeat split; constructor.
  - destruct (enc (line_text l)) eqn:El.
    + destruct (write_lines enc rest) as [w o] eqn:Hw.
      injection H as <- <-.
      destruct (IH w o eq_refl) as (r & -> & Hall & Hok & Hr).
      exists r. repeat split; try assumption; try apply Hok.
      constructor; assumption.
    + injection H as <- <-. exists (l :: rest).
      repeat split; try discriminate; [constructor | exact El].
Qed.

(** The run on a platform that opens the output and encodes every line. *)
Lemma main_writes (pf : Platform) (files : list Node) (out : option Csv)
      (contents : EntrySet) :
  read_files files [] = Ok contents -> contents <> [] ->
  opens pf = true ->
  (forall l, In l (HeaderLine field_names :: map EntryLine contents) ->
             encodes pf (line_text l) = true) ->
  main pf files out
  = (0%Z, Some (HeaderLine field_names :: map EntryLine contents)).
Proof.
  intros Hc Hne Ho Henc. unfold main. rewrite Hc.
  destruct contents as [| x r]; [contradiction Hne; reflexivity|].
  rewrite Ho, (write_lines_all _ _ Henc). reflexivity.
Qed.

(** C2. Two entries are equal exactly when they agree in all nine fields:
    the same day, the same texts and, in the four decimal fields, the same
    numbers, where a NaN is not a number.  When two of the pages that are
    read each give such an entry, the set the run collects holds exactly
    one member that agrees with them, and the run writes that set where
    the output can be opened and every line encoded. *)
Theorem equal_rows_merge_once :
  (forall a b : Entry, entry_eqb a b = true <-> same_record a b)
  /\ (forall (files : list Node) (f1 f2 : Node)
             (s1 s2 : EntrySet) (e1 e2 : Entry),
        (forall f, In f files -> exists s, read_in f = Ok s) ->
        In f1 files -> In f2 files ->
        read_in f1 = Ok s1 -> read_in f2 = Ok s2 ->
        In e1 s1 -> In e2 s2 ->
        same_record e1 e2 ->
        exists contents l1 x l2,
          read_files files [] = Ok contents
          /\ contents = l1 ++ x :: l2
          /\ same_record e1 x /\ same_record e2 x
          /\ (forall y, In y (l1 ++ l2) ->
                ~ same_record e1 y /\ ~ same_record e2 y)
          /\ forall (pf : Platform) (out : option Csv),
               opens pf = true ->
               (forall l,
                   In l (HeaderLine field_names :: map EntryLine contents) ->
                   encodes pf (line_text l) = true) ->
               main pf files out
               = (0%Z,
                  Some (HeaderLine field_names :: map EntryLine contents))).
Proof.
  split; [exact entry_eqb_same_record|].
  intros files f1 f2 s1 s2 e1 e2 Hall Hf1 Hf2 Hs1 Hs2 He1 He2 Hsame.
  apply entry_eqb_same_record in Hsame as Heq.
  destruct (read_files_total files Hall []) as (contents & Hc).
  assert (entry_eqb e1 e1 = true) as Hrefl
      by (eapply entry_eqb_trans; [|apply entry_eqb_sym]; eassumption).
  assert (count_equal e1 contents = 1%nat) as Hone.
  { pose proof (read_files_distinct files [] I Hc) as Hd.
    pose proof (read_files_covers files [] f1 e1 e1 Hf1 Hs1 He1 Hrefl Hc) as Hcov.
    pose proof (distinct_count_le e1 contents Hd).
    pose proof (covered_count_ge e1 contents Hcov). lia. }
  destruct (count_one_split _ _ Hone) as (l1 & x & l2 & Hsplit & Hx & Hrest).
  exists contents, l1, x, l2.
  split; [exact Hc|]. split; [exact Hsplit|].
  split; [apply entry_eqb_same_record; exact Hx|].
  split.
  { apply entry_eqb_same_record.
    eapply entry_eqb_trans; [apply entry_eqb_sym|]; eassumption. }
  split.
  - intros y Hy. split.
    + apply entry_eqb_not_same. apply Hrest. exact Hy.
    + apply entry_eqb_not_same.
      destruct (entry_eqb e2 y) eqn:E2; [|reflexivity].
      rewrite <- (Hrest y Hy). symmetry.
      exact (@entry_eqb_trans e1 e2 y Heq E2).
  - intros pf out Ho Henc. apply main_writes; try assumption.
    rewrite Hsplit. destruct l1; discriminate.
Qed.

Lemma equal_rows_merge_once_witness :
  exists contents l1 x l2,
    read_files [Sample.page [Sample.header_row; Sample.purchase_row];
                Sample.page [Sample.purchase_row'; Sample.topup_row]] []
      = Ok contents
    /\ contents = l1 ++ x :: l2
    /\ same_record Sample.purchase_entry x
    /\ same_record Sample.purchase_entry' x
    /\ (forall y, In y (l1 ++ l2) ->
          ~ same_record Sample.purchase_entry y
          /\ ~ same_record Sample.purchase_entry' y)
    /\ forall (pf : Platform) (out : option Csv),
         opens pf = true ->
         (forall l,
             In l (HeaderLine field_names :: map EntryLine contents) ->
             encodes pf (line_text l) = true) ->
         main pf [Sample.page [Sample.header_row; Sample.purchase_row];
                  Sample.page [Sample.purchase_row'; Sample.topup_row]] out
         = (0%Z, Some (HeaderLine field_names :: map EntryLine contents)).
Proof.
  apply (proj2 equal_rows_merge_once
           [Sample.page [Sample.header_row; Sample.purchase_row];
            Sample.page [Sample.purchase_row'; Sample.topup_row]]
           (Sample.page [Sample.header_row; Sample.purchase_row])
           (Sample.page [Sample.purchase_row'; Sample.topup_row])
           [Sample.purchase_entry]
           [Sample.topup_entry; Sample.purchase_entry']).
  - intros f [<- | [<- | []]]; eexists; vm_compute; reflexivity.
  - left. reflexivity.
  - right. left. reflexivity.
  - vm_compute. reflexivity.
  - vm_compute. reflexivity.
  - left. reflexivity.
  - vm_compute. right. left. reflexivity.
  - apply (proj1 (entry_eqb_same_record _ _)). vm_compute. reflexivity.
Defined.

(** A row whose fee reads [NaN], on two pages: each page gives the very
    same record, and the run writes it twice. *)
Lemma nan_row_is_written_twice :
  read_in (Sample.page [Sample.nan_fee_row]) = Ok [Sample.nan_fee_entry]
  /\ main Sample.utf8_platform
          [Sample.page [Sample.nan_fee_row];
           Sample.page [Sample.nan_fee_row]] None
     = (0%Z, Some [HeaderLine field_names;
                   EntryLine Sample.nan_fee_entry;
                   EntryLine Sample.nan_fee_entry])
  /\ csv_text [HeaderLine field_names;
               EntryLine Sample.nan_fee_entry;
               EntryLine Sample.nan_fee_entry]
     = lit "date,memo,amount,fee,atm_fee,conversion_fee,decision,tx_id,note"
       ++ [13; 10]
       ++ lit "2023-04-01,shop,1000.00,NaN,0,0,OK,123," ++ [13; 10]
       ++ lit "2023-04-01,shop,1000.00,NaN,0,0,OK,123," ++ [13; 10].
Proof. repeat split; vm_compute; reflexivity. Qed.

(* ================================================================== *)
(** * Further properties of the extraction and of the run *)
(* ================================================================== *)

(** In a row that builds an entry, a fee cell whose string is blank gives
    decimal zero in the entry. *)
Theorem blank_fee_cells_read_as_zero (row : Node) (e : Entry) :
  read_row row = Ok (Some e) ->
  (forall c s, nth_error (find_all (lit "td") row) 3 = Some c ->
               tag_string c = Some s -> strip s = [] -> fee e = zero)
  /\ (forall c s, nth_error (find_all (lit "td") row) 4 = Some c ->
                  tag_string c = Some s -> strip s = [] -> atm_fee e = zero)
  /\ (forall c s, nth_error (find_all (lit "td") row) 5 = Some c ->
                  tag_string c = Some s -> strip s = [] ->
                  conversion_fee e = zero).
Proof.
  intros H. apply read_row_entry in H as [_ H].
  apply read_cells_entry in H
    as (dc & tl & draw & raw & _ & _ & _ & _ & _ & _ & _ & H3 & H4 & H5 & _).
  repeat split; intros c s Hc Hs Hblank.
  - rewrite (fee_cell_blank _ 3 Hc Hs Hblank) in H3. congruence.
  - rewrite (fee_cell_blank _ 4 Hc Hs Hblank) in H4. congruence.
  - rewrite (fee_cell_blank _ 5 Hc Hs Hblank) in H5. congruence.
Qed.

Lemma blank_fee_cells_read_as_zero_witness :
  (forall c s, nth_error (find_all (lit "td") Sample.topup_row) 3 = Some c ->
               tag_string c = Some s -> strip s = [] ->
               fee Sample.topup_entry = zero)
  /\ (forall c s, nth_error (find_all (lit "td") Sample.topup_row) 4 = Some c ->
                  tag_string c = Some s -> strip s = [] ->
                  atm_fee Sample.topup_entry = zero)
  /\ (forall c s, nth_error (find_all (lit "td") Sample.topup_row) 5 = Some c ->
                  tag_string c = Some s -> strip s = [] ->
                  conversion_fee Sample.topup_entry = zero).
Proof.
  apply (@blank_fee_cells_read_as_zero Sample.topup_row Sample.topup_entry).
  vm_compute. reflexivity.
Defined.

(** The identifier is not checked: a row that builds an entry builds one
    with any other identifier cell that has a string, a blank one too, and
    the stripped string is the identifier. *)
Theorem identifier_is_not_checked (row c : Node) (e : Entry) (s : str) :
  read_row row = Ok (Some e) ->
  tag_string c = Some s ->
  read_cells (replace_nth 7 c (find_all (lit "td") row))
  = Ok (Some (mkEntry (date e) (memo e) (amount e) (fee e)
                      (atm_fee e) (conversion_fee e) (decision e)
                      (strip s) (note e))).
Proof.
  intros Hrow Hs.
  apply read_row_entry in Hrow as [_ H].
  apply read_cells_entry in H
    as (dc & tl & draw & raw & Htds & Hnb & H0 & Hraw & H1 & Hamt & Hd
        & H3 & H4 & H5 & H6 & H7 & H8).
  apply read_cells_build with (rest := replace_nth 6 c tl)
                              (date_cell := dc) (date_raw := draw)
                              (amount_raw := raw).
  - rewrite Htds. reflexivity.
  - exact Hnb.
  - rewrite cell_text_replace_other by discriminate. exact H0.
  - rewrite amount_text_replace_other by discriminate. exact Hraw.
  - rewrite cell_text_replace_other by discriminate. exact H1.
  - exact Hamt.
  - exact Hd.
  - rewrite fee_cell_replace_other by discriminate. exact H3.
  - rewrite fee_cell_replace_other by discriminate. exact H4.
  - rewrite fee_cell_replace_other by discriminate. exact H5.
  - rewrite cell_text_replace_other by discriminate. exact H6.
  - apply (cell_text_replace_same 7 c _ H7 Hs).
  - rewrite cell_text_replace_other by discriminate. exact H8.
Qed.

Lemma identifier_is_not_checked_witness :
  read_cells (replace_nth 7 Sample.blank_td
                          (find_all (lit "td") Sample.purchase_row))
  = Ok (Some (mkEntry (mkDate 2023 4 1) (lit "shop")
                      (Finite false 100000 (-2)) zero zero zero
                      (lit "OK") (strip (lit " ")) [])).
Proof.
  apply (@identifier_is_not_checked Sample.purchase_row Sample.blank_td
           Sample.purchase_entry (lit " ")).
  - vm_compute. reflexivity.
  - reflexivity.
Defined.

(** A data row with fewer than nine cells fails; it is not dropped. *)
Theorem short_row_raises (row c : Node) (rest : list Node) :
  find_all (lit "th") row = [] ->
  find_all (lit "td") row = c :: rest ->
  nonblank (tag_string c) = true ->
  (List.length (c :: rest) < 9)%nat ->
  exists err, read_row row = Raise err.
Proof.
  intros Hth Htd Hnb Hlen.
  destruct (read_row row) as [[e |] | err] eqn:Hrow.
  - exfalso. apply read_row_entry in Hrow as [_ H].
    apply read_cells_entry in H
      as (dc & tl & draw & raw & _ & _ & _ & _ & _ & _ & _ & _ & _ & _ & _
          & _ & H8).
    apply cell_text_ok in H8 as (c8 & s8 & Hc8 & _).
    assert (nth_error (find_all (lit "td") row) 8 <> None) as Hsome
        by congruence.
    apply nth_error_Some in Hsome. rewrite Htd in Hsome. lia.
  - exfalso. unfold read_row in Hrow. rewrite Hth, Htd in Hrow.
    unfold read_cells in Hrow. rewrite Hnb in Hrow. simpl in Hrow.
    repeat (apply bind_ok in Hrow; destruct Hrow as (? & _ & Hrow)).
    discriminate Hrow.
  - exists err. reflexivity.
Qed.

Lemma short_row_raises_witness :
  exists err,
    read_row (Sample.tr [Sample.date_td; Sample.td (lit "shop");
                         Sample.amount_td (lit "1") (lit "2")])
    = Raise err.
Proof.
  eapply short_row_raises.
  - vm_compute. reflexivity.
  - vm_compute. reflexivity.
  - vm_compute. reflexivity.
  - simpl. lia.
Defined.

(** A page without a table fails the run: non-zero status, output path
    left as it was. *)
Theorem missing_table_fails_run
        (pf : Platform) (files : list Node) (out : option Csv) (f : Node) :
  In f files -> find (lit "table") f = None ->
  fst (main pf files out) <> 0%Z /\ snd (main pf files out) = out.
Proof.
  intros Hin Hnone.
  assert (read_in f = Raise AttributeError) as Hf
      by (unfold read_in; rewrite Hnone; reflexivity).
  destruct (read_files_raise files f Hin Hf []) as (e' & He').
  unfold main. rewrite He'. simpl. split; [discriminate | reflexivity].
Qed.

Lemma missing_table_fails_run_witness :
  fst (main Sample.utf8_platform
            [Tag (lit "[document]") [Text (lit "no statement")]] None) <> 0%Z
  /\ snd (main Sample.utf8_platform
               [Tag (lit "[document]") [Text (lit "no statement")]] None)
     = None.
Proof.
  apply (@missing_table_fails_run Sample.utf8_platform _ None
           (Tag (lit "[document]") [Text (lit "no statement")])).
  - left. reflexivity.
  - vm_compute. reflexivity.
Defined.

(** The run changes what is at the output path only after every page has
    been read and the path has been opened.  What is there then is the
    header and the lines of the collected entries, in the order of the
    set, up to the first line the platform cannot encode; the status is 0
    when every line is there, and 1 otherwise. *)
Theorem output_written_after_all_pages
        (pf : Platform) (files : list Node) (out out' : option Csv)
        (status : Z) :
  main pf files out = (status, out') -> out' <> out ->
  opens pf = true
  /\ (forall f, In f files -> exists s, read_in f = Ok s)
  /\ exists contents written rest,
       read_files files [] = Ok contents
       /\ contents <> []
       /\ out' = Some written
       /\ HeaderLine field_names :: map EntryLine contents = written ++ rest
       /\ Forall (fun l => encodes pf (line_text l) = true) written
       /\ match rest with
          | [] => status = 0%Z
          | l :: _ => status = 1%Z /\ encodes pf (line_text l) = false
          end.
Proof.
  unfold main. intros Hmain Hchanged.
  destruct (read_files files []) as [contents | e] eqn:Hc.
  - destruct contents as [| x r].
    + injection Hmain as <- <-. contradiction Hchanged. reflexivity.
    + destruct (opens pf) eqn:Ho.
      * destruct (write_lines (encodes pf)
                    (HeaderLine field_names :: map EntryLine (x :: r)))
          as [written ok] eqn:Hw.
        injection Hmain as <- <-. split; [reflexivity|]. split.
        -- intros f Hf. destruct (read_in f) as [s | e] eqn:Hr.
           ++ exists s. reflexivity.
           ++ destruct (read_files_raise files f Hf Hr []) as (e' & He').
              congruence.
        -- destruct (write_lines_prefix _ _ Hw) as (rest & Hl & Hall & Hok & Hr).
           exists (x :: r), written, rest.
           split; [reflexivity|]. split; [discriminate|].
           split; [reflexivity|]. split; [exact Hl|]. split; [exact Hall|].
           destruct rest as [| l rest'].
           ++ rewrite (proj2 Hok eq_refl). reflexivity.
           ++ destruct ok.
              ** discriminate (proj1 Hok eq_refl).
              ** split; [reflexivity | exact Hr].
      * injection Hmain as <- <-. contradiction Hchanged. reflexivity.
  - injection Hmain as <- <-. contradiction Hchanged. reflexivity.
Qed.

Lemma output_written_after_all_pages_witness :
  opens Sample.ascii_platform = true
  /\ (forall f, In f [Sample.page [Sample.header_row; Sample.kanji_row]] ->
                exists s, read_in f = Ok s)
  /\ exists contents written rest,
       read_files [Sample.page [Sample.header_row; Sample.kanji_row]] []
       = Ok contents
       /\ contents <> []
       /\ Some [HeaderLine field_names] = Some written
       /\ HeaderLine field_names :: map EntryLine contents = written ++ rest
       /\ Forall (fun l => encodes Sample.ascii_platform (line_text l) = true)
                 written
       /\ match rest with
          | [] => 1%Z = 0%Z
          | l :: _ =>
            1%Z = 1%Z
            /\ encodes Sample.ascii_platform (line_text l) = false
          end.
Proof.
  apply (@output_written_after_all_pages
           Sample.ascii_platform
           [Sample.page [Sample.header_row; Sample.kanji_row]] None).
  - vm_compute. reflexivity.
  - discriminate.
Defined.

(** One page with a header row, a top-up and a purchase of 1,000.00: the
    run writes both records, the top-up with the amount negated. *)
Example top_up_and_purchase :
  main Sample.utf8_platform
       [Sample.page [Sample.header_row; Sample.topup_row; Sample.purchase_row]]
       None
  = (0%Z, Some [HeaderLine field_names; EntryLine Sample.topup_entry;
                EntryLine Sample.purchase_entry]).
Proof. vm_compute. reflexivity. Qed.

(** A memo that the encoding of the platform does not hold: the output is
    opened, the header is written, and the run ends with status 1.  Where the output cannot be opened it stays as it
    was. *)
Example memo_not_encoded :
  main Sample.ascii_platform
       [Sample.page [Sample.header_row; Sample.kanji_row]] None
  = (1%Z, Some [HeaderLine field_names])
  /\ main Sample.utf8_platform
          [Sample.page [Sample.header_row; Sample.kanji_row]] None
     = (0%Z, Some [HeaderLine field_names; EntryLine Sample.kanji_entry])
  /\ main Sample.closed_platform
          [Sample.page [Sample.header_row; Sample.kanji_row]] None
     = (1%Z, None).
Proof. repeat split; vm_compute; reflexivity. Qed.

(* ================================================================== *)
(** * What a page and a run collect *)
(* ================================================================== *)

Lemma set_insert_in (e x : Entry) (s : EntrySet) :
  In x (set_insert e s) -> x = e \/ In x s.
Proof.
  unfold set_insert. destruct (existsb (entry_eqb e) s).
  - intros H. right. exact H.
  - intros [<- | H]; [left; reflexivity | right; exact H].
Qed.

Lemma set_insert_keeps (e x : Entry) (s : EntrySet) :
  In x s -> In x (set_insert e s).
Proof.
  intros H. unfold set_insert.
  destruct (existsb (entry_eqb e) s); [exact H | right; exact H].
Qed.

(** After an insertion the entry is in the set, or a member equals it. *)
Lemma set_insert_holds (e : Entry) (s : EntrySet) :
  In e (set_insert e s)
  \/ exists e', In e' (set_insert e s) /\ entry_eqb e e' = true.
Proof.
  unfold set_insert. destruct (existsb (entry_eqb e) s) eqn:E.
  - right. apply existsb_exists in E as (e' & He' & Heq).
    exists e'. split; assumption.
  - left. left. reflexivity.
Qed.

Lemma set_add_ok (e : Entry) (s t : EntrySet) :
  set_add e s = Ok t -> entry_hashable e = true /\ t = set_insert e s.
Proof.
  unfold set_add. destruct (entry_hashable e); [|discriminate].
  intros H. injection H as <-. split; reflexivity.
Qed.

Lemma read_rows_keeps (trs : list Node) (acc s : EntrySet) (x : Entry) :
  read_rows trs acc = Ok s -> In x acc -> In x s.
Proof.
  revert acc. induction trs as [| row rest IH]; intros acc H Hx; simpl in H.
  - congruence.
  - inv_bind H. destruct v as [e |].
    + inv_bind H. apply set_add_ok in Hv0 as [_ ->].
      apply (IH _ H). apply set_insert_keeps. exact Hx.
    + apply (IH _ H Hx).
Qed.

Lemma read_rows_sound (trs : list Node) (acc s : EntrySet) (x : Entry) :
  read_rows trs acc = Ok s -> In x s ->
  In x acc \/ exists row, In row trs /\ read_row row = Ok (Some x).
Proof.
  revert acc. induction trs as [| row rest IH]; intros acc H Hx; simpl in H.
  - left. congruence.
  - inv_bind H. destruct v as [e |].
    + inv_bind H. apply set_add_ok in Hv0 as [_ ->].
      destruct (IH _ H Hx) as [Hin | (r & Hr & Hrow)].
      * apply set_insert_in in Hin as [-> | Hin].
        -- right. exists row. split; [left; reflexivity | exact Hv].
        -- left. exact Hin.
      * right. exists r. split; [right; exact Hr | exact Hrow].
    + destruct (IH _ H Hx) as [Hin | (r & Hr & Hrow)].
      * left. exact Hin.
      * right. exists r. split; [right; exact Hr | exact Hrow].
Qed.

Lemma read_rows_complete (trs : list Node) (acc s : EntrySet)
      (row : Node) (e : Entry) :
  read_rows trs acc = Ok s -> In row trs -> read_row row = Ok (Some e) ->
  entry_hashable e = true
  /\ (In e s \/ exists e', In e' s /\ entry_eqb e e' = true).
Proof.
  revert acc. induction trs as [| r rest IH]; intros acc H Hin Hrow.
  - destruct Hin.
  - simpl in H. inv_bind H. destruct Hin as [-> | Hin].
    + rewrite Hrow in Hv. injection Hv as <-.
      inv_bind H. apply set_add_ok in Hv as [Hh ->].
      split; [exact Hh|].
      destruct (set_insert_holds e acc) as [He | (e' & He' & Heq)].
      * left. apply (read_rows_keeps _ _ _ H He).
      * right. exists e'. split; [apply (read_rows_keeps _ _ _ H He') | exact Heq].
    + destruct v as [e0 |].
      * inv_bind H. apply (IH _ H Hin Hrow).
      * apply (IH _ H Hin Hrow).
Qed.

Lemma read_rows_distinct (trs : list Node) (acc s : EntrySet) :
  distinct acc -> read_rows trs acc = Ok s -> distinct s.
Proof.
  revert acc. induction trs as [| row rest IH]; intros acc Hacc H; simpl in H.
  - congruence.
  - inv_bind H. destruct v as [e |].
    + inv_bind H. apply set_add_ok in Hv0 as [_ ->].
      apply (IH _ (set_insert_distinct e acc Hacc) H).
    + apply (IH _ Hacc H).
Qed.

Lemma read_rows_fails (trs : list Node) (row : Node) :
  In row trs -> row_fails row ->
  forall acc, exists err, read_rows trs acc = Raise err.
Proof.
  induction trs as [| r rest IH]; intros Hin Hfail acc.
  - destruct Hin.
  - simpl. destruct (read_row r) as [[e |] | err] eqn:Hr; simpl.
    + unfold set_add. destruct (entry_hashable e) eqn:Hh; simpl.
      * destruct Hin as [-> | Hin]; [|apply IH; assumption].
        destruct Hfail as [(err & He) | (e' & He' & Hh')]; [congruence|].
        rewrite Hr in He'. injection He' as <-. congruence.
      * exists TypeError. reflexivity.
    + destruct Hin as [-> | Hin]; [|apply IH; assumption].
      destruct Hfail as [(err & He) | (e' & He' & _)]; congruence.
    + exists err. reflexivity.
Qed.

(** The set of a page holds exactly what the rows of its first table
    build: every member was built by a row below that table, every entry a
    row builds is in the set or equals a member, no two members are equal,
    and no row failed. *)
Theorem page_set_is_what_rows_build (soup : Node) (s : EntrySet) :
  read_in soup = Ok s ->
  exists table,
    find (lit "table") soup = Some table
    /\ (forall e, In e s ->
          exists row, In row (find_all (lit "tr") table)
                      /\ read_row row = Ok (Some e))
    /\ (forall row e, In row (find_all (lit "tr") table) ->
          read_row row = Ok (Some e) ->
          In e s \/ exists e', In e' s /\ entry_eqb e e' = true)
    /\ distinct s
    /\ (forall row, In row (find_all (lit "tr") table) -> ~ row_fails row).
Proof.
  unfold read_in. destruct (find (lit "table") soup) as [table |];
    [|discriminate].
  intros H. exists table. split; [reflexivity|]. repeat split.
  - intros e He. destruct (read_rows_sound _ _ e H He) as [[] | Hrow].
    exact Hrow.
  - intros row e Hin Hrow. apply (read_rows_complete _ _ _ H Hin Hrow).
  - apply (read_rows_distinct _ [] I H).
  - intros row Hin Hfail.
    destruct (@read_rows_fails _ row Hin Hfail []) as (err & Herr). congruence.
Qed.

Lemma page_set_is_what_rows_build_witness :
  exists table,
    find (lit "table")
         (Sample.page [Sample.header_row; Sample.purchase_row;
                       Sample.purchase_row']) = Some table
    /\ (forall e, In e [Sample.purchase_entry] ->
          exists row, In row (find_all (lit "tr") table)
                      /\ read_row row = Ok (Some e))
    /\ (forall row e, In row (find_all (lit "tr") table) ->
          read_row row = Ok (Some e) ->
          In e [Sample.purchase_entry]
          \/ exists e', In e' [Sample.purchase_entry]
                        /\ entry_eqb e e' = true)
    /\ distinct [Sample.purchase_entry]
    /\ (forall row, In row (find_all (lit "tr") table) -> ~ row_fails row).
Proof.
  apply (@page_set_is_what_rows_build
           (Sample.page [Sample.header_row; Sample.purchase_row;
                         Sample.purchase_row'])).
  vm_compute. reflexivity.
Defined.

(** One row that fails makes the whole run fail: when a row below the
    first table of any page raises, or builds an entry that cannot be
    hashed, the run ends with a non-zero status and leaves the output path
    as it was. *)
Theorem failing_row_fails_run
        (pf : Platform) (files : list Node) (out : option Csv)
        (f table row : Node) :
  In f files ->
  find (lit "table") f = Some table ->
  In row (find_all (lit "tr") table) ->
  row_fails row ->
  fst (main pf files out) <> 0%Z /\ snd (main pf files out) = out.
Proof.
  intros Hf Htable Hrow Hfail.
  destruct (@read_rows_fails _ row Hrow Hfail []) as (err & Herr).
  assert (read_in f = Raise err) as Hin
      by (unfold read_in; rewrite Htable; exact Herr).
  destruct (read_files_raise files f Hf Hin []) as (e' & He').
  unfold main. rewrite He'. simpl. split; [discriminate | reflexivity].
Qed.

Lemma failing_row_fails_run_witness :
  fst (main Sample.utf8_platform
            [Sample.page [Sample.purchase_row];
             Sample.page [Sample.header_row; Sample.purchase_row;
                          Sample.empty_fee_row]] None) <> 0%Z
  /\ snd (main Sample.utf8_platform
               [Sample.page [Sample.purchase_row];
                Sample.page [Sample.header_row; Sample.purchase_row;
                             Sample.empty_fee_row]] None) = None.
Proof.
  apply (@failing_row_fails_run Sample.utf8_platform _ None
           (Sample.page [Sample.header_row; Sample.purchase_row;
                         Sample.empty_fee_row])
           (Tag (lit "table") [Sample.header_row; Sample.purchase_row;
                               Sample.empty_fee_row])
           Sample.empty_fee_row).
  - right. left. reflexivity.
  - vm_compute. reflexivity.
  - vm_compute. right. right. left. reflexivity.
  - left. exists AttributeError. vm_compute. reflexivity.
Defined.

Lemma set_update_in (t s : EntrySet) (x : Entry) :
  In x (set_update s t) -> In x s \/ In x t.
Proof.
  unfold set_update. revert s.
  induction t as [| e t IH]; intros s H; simpl in H; [left; exact H|].
  destruct (IH _ H) as [Hs | Ht].
  - apply set_insert_in in Hs as [-> | Hs];
      [right; left; reflexivity | left; exact Hs].
  - right. right. exact Ht.
Qed.

Lemma set_update_keeps (t s : EntrySet) (x : Entry) :
  In x s -> In x (set_update s t).
Proof.
  unfold set_update. revert s.
  induction t as [| e t IH]; intros s H; simpl; [exact H|].
  apply IH. apply set_insert_keeps. exact H.
Qed.

Lemma set_update_holds (t s : EntrySet) (e : Entry) :
  In e t ->
  In e (set_update s t)
  \/ exists e', In e' (set_update s t) /\ entry_eqb e e' = true.
Proof.
  revert s. induction t as [| x t IH]; intros s Hin; [destruct Hin|].
  destruct Hin as [-> | Hin].
  - change (set_update s (e :: t)) with (set_update (set_insert e s) t).
    destruct (set_insert_holds e s) as [He | (e' & He' & Heq)].
    + left. apply set_update_keeps. exact He.
    + right. exists e'. split; [apply set_update_keeps; exact He' | exact Heq].
  - change (set_update s (x :: t)) with (set_update (set_insert x s) t).
    apply IH. exact Hin.
Qed.

Lemma read_files_keeps (files : list Node) (acc c : EntrySet) (x : Entry) :
  read_files files acc = Ok c -> In x acc -> In x c.
Proof.
  revert acc. induction files as [| f rest IH]; intros acc H Hx; simpl in H.
  - congruence.
  - inv_bind H. apply (IH _ H). apply set_update_keeps. exact Hx.
Qed.

Lemma read_files_sound (files : list Node) (acc c : EntrySet) (x : Entry) :
  read_files files acc = Ok c -> In x c ->
  In x acc \/ exists f s, In f files /\ read_in f = Ok s /\ In x s.
Proof.
  revert acc. induction files as [| f rest IH]; intros acc H Hx; simpl in H.
  - left. congruence.
  - inv_bind H. destruct (IH _ H Hx) as [Hin | (g & s & Hg & Hs & Hxs)].
    + apply set_update_in in Hin as [Hacc | Hv'].
      * left. exact Hacc.
      * right. exists f, v. repeat split; [left; reflexivity | exact Hv | exact Hv'].
    + right. exists g, s. repeat split; [right; exact Hg | exact Hs | exact Hxs].
Qed.

Lemma read_files_complete (files : list Node) (acc c s : EntrySet)
      (f : Node) (e : Entry) :
  read_files files acc = Ok c -> In f files -> read_in f = Ok s -> In e s ->
  In e c \/ exists e', In e' c /\ entry_eqb e e' = true.
Proof.
  revert acc. induction files as [| g rest IH]; intros acc H Hf Hs He.
  - destruct Hf.
  - simpl in H. inv_bind H. destruct Hf as [-> | Hf].
    + rewrite Hs in Hv. injection Hv as <-.
      destruct (set_update_holds s acc e He) as [Hin | (e' & He' & Heq)].
      * left. apply (read_files_keeps _ _ _ H Hin).
      * right. exists e'. split; [apply (read_files_keeps _ _ _ H He') | exact Heq].
    + apply (IH _ H Hf Hs He).
Qed.

Lemma read_files_raise_inv (files : list Node) (acc : EntrySet) (err : Exn) :
  read_files files acc = Raise err ->
  exists f, In f files /\ read_in f = Raise err.
Proof.
  revert acc. induction files as [| g rest IH]; intros acc H; simpl in H.
  - discriminate H.
  - destruct (read_in g) as [s | e] eqn:Hg; simpl in H.
    + destruct (IH _ H) as (f & Hf & Hr). exists f. split; [right|]; assumption.
    + injection H as ->. exists g. split; [left; reflexivity | exact Hg].
Qed.

Lemma read_files_ok_all (files : list Node) (acc c : EntrySet) :
  read_files files acc = Ok c ->
  forall f, In f files -> exists s, read_in f = Ok s.
Proof.
  intros H f Hf. destruct (read_in f) as [s | e] eqn:Hr.
  - exists s. reflexivity.
  - destruct (read_files_raise files f Hf Hr acc) as (e' & He'). congruence.
Qed.

(** The merged set is the union of the sets of the pages: every member
    comes from the set of some page, and every member of the set of every
    page is in it or agrees in all nine fields with a member.  When it is
    not empty the run opens the output: where that fails the output stays
    as it was and the status is 1, and where every line can be encoded the
    header and the lines of the set are written, with status 0. *)
Theorem merged_set_is_union (files : list Node) (c : EntrySet) :
  read_files files [] = Ok c ->
  (forall e, In e c ->
     exists f s, In f files /\ read_in f = Ok s /\ In e s)
  /\ (forall f s e, In f files -> read_in f = Ok s -> In e s ->
        In e c \/ exists e', In e' c /\ same_record e e')
  /\ (c <> [] ->
      forall (pf : Platform) (out : option Csv),
        (opens pf = false -> main pf files out = (1%Z, out))
        /\ (opens pf = true ->
            (forall l, In l (HeaderLine field_names :: map EntryLine c) ->
                       encodes pf (line_text l) = true) ->
            main pf files out
            = (0%Z, Some (HeaderLine field_names :: map EntryLine c)))).
Proof.
  intros H. split; [|split].
  - intros e He. destruct (read_files_sound _ _ e H He) as [[] | Hf].
    exact Hf.
  - intros f s e Hf Hs He.
    destruct (@read_files_complete files [] c s f e H Hf Hs He)
      as [Hin | (e' & He' & Heq)].
    + left. exact Hin.
    + right. exists e'. split; [exact He'|].
      apply entry_eqb_same_record. exact Heq.
  - intros Hne pf out. split.
    + intros Ho. unfold main. rewrite H, Ho.
      destruct c; [contradiction Hne; reflexivity | reflexivity].
    + intros Ho Henc. apply main_writes; assumption.
Qed.

Lemma merged_set_is_union_witness :
  (forall e, In e [Sample.topup_entry; Sample.purchase_entry] ->
     exists f s,
       In f [Sample.page [Sample.purchase_row];
             Sample.page [Sample.purchase_row'; Sample.topup_row]]
       /\ read_in f = Ok s /\ In e s)
  /\ (forall f s e,
        In f [Sample.page [Sample.purchase_row];
              Sample.page [Sample.purchase_row'; Sample.topup_row]] ->
        read_in f = Ok s -> In e s ->
        In e [Sample.topup_entry; Sample.purchase_entry]
        \/ exists e', In e' [Sample.topup_entry; Sample.purchase_entry]
                      /\ same_record e e')
  /\ ([Sample.topup_entry; Sample.purchase_entry] <> [] ->
      forall (pf : Platform) (out : option Csv),
        (opens pf = false ->
         main pf [Sample.page [Sample.purchase_row];
                  Sample.page [Sample.purchase_row'; Sample.topup_row]] out
         = (1%Z, out))
        /\ (opens pf = true ->
            (forall l,
                In l (HeaderLine field_names
                        :: map EntryLine
                               [Sample.topup_entry; Sample.purchase_entry]) ->
                encodes pf (line_text l) = true) ->
            main pf [Sample.page [Sample.purchase_row];
                     Sample.page [Sample.purchase_row'; Sample.topup_row]] out
            = (0%Z,
               Some (HeaderLine field_names
                       :: map EntryLine
                              [Sample.topup_entry; Sample.purchase_entry])))).
Proof.
  apply (@merged_set_is_union
           [Sample.page [Sample.purchase_row];
            Sample.page [Sample.purchase_row'; Sample.topup_row]]).
  vm_compute. reflexivity.
Defined.

Lemma covered_iff (files : list Node) (c : EntrySet) (x : Entry) :
  read_files files [] = Ok c ->
  (existsb (entry_eqb x) c = true <->
   exists f s e, In f files /\ read_in f = Ok s /\ In e s
                 /\ entry_eqb x e = true).
Proof.
  intros H. split.
  - intros Hc. apply existsb_exists in Hc as (e & He & Hxe).
    destruct (read_files_sound _ _ e H He) as [[] | (f & s & Hf & Hs & Hes)].
    exists f, s, e. repeat split; assumption.
  - intros (f & s & e & Hf & Hs & He & Hxe).
    apply (read_files_covers files [] f x e Hf Hs He Hxe H).
Qed.

(** The order in which the pages are found does not matter: in another
    order the run fails if and only if it failed, and otherwise collects a
    set that is empty if and only if the first one is and that holds an
    equal of exactly the same records. *)
Theorem page_order_is_irrelevant (files files' : list Node) :
  Permutation files files' ->
  (forall err, read_files files [] = Raise err ->
     exists err', read_files files' [] = Raise err')
  /\ (forall c, read_files files [] = Ok c ->
        exists c',
          read_files files' [] = Ok c'
          /\ (c = [] <-> c' = [])
          /\ forall x, existsb (entry_eqb x) c = existsb (entry_eqb x) c').
Proof.
  intros Hperm. split.
  - intros err H. apply read_files_raise_inv in H as (f & Hf & Hr).
    apply (read_files_raise files' f (Permutation_in _ Hperm Hf) Hr).
  - intros c H.
    assert (forall f, In f files' -> exists s, read_in f = Ok s) as Hall.
    { intros f Hf. apply (read_files_ok_all _ _ H).
      apply (Permutation_in _ (Permutation_sym Hperm) Hf). }
    destruct (read_files_total files' Hall []) as (c' & H').
    exists c'. split; [exact H'|]. split.
    + assert (forall l l' a a', Permutation l l' ->
                read_files l [] = Ok a -> read_files l' [] = Ok a' ->
                a' = [] -> a = []) as Hempty.
      { intros l l' a a' Hp Ha Ha' ->. destruct a as [| e r]; [reflexivity|].
        destruct (read_files_sound _ _ e Ha (or_introl eq_refl))
          as [[] | (f & s & Hf & Hs & He)].
        destruct (@read_files_complete l' [] [] s f e Ha'
                    (Permutation_in _ Hp Hf) Hs He)
          as [[] | (e' & [] & _)]. }
      split; intros E.
      * apply (Hempty files' files c' c (Permutation_sym Hperm) H' H E).
      * apply (Hempty files files' c c' Hperm H H' E).
    + intros x.
      pose proof (@covered_iff files c x H) as I1.
      pose proof (@covered_iff files' c' x H') as I2.
      destruct (existsb (entry_eqb x) c) eqn:E1,
               (existsb (entry_eqb x) c') eqn:E2; try reflexivity.
      * destruct (proj1 I1 eq_refl) as (f & s & e & Hf & Hs & He & Hxe).
        assert (false = true) as C; [|discriminate C].
        apply I2. exists f, s, e.
        repeat split; try assumption. apply (Permutation_in _ Hperm Hf).
      * destruct (proj1 I2 eq_refl) as (f & s & e & Hf & Hs & He & Hxe).
        assert (false = true) as C; [|discriminate C].
        apply I1. exists f, s, e.
        repeat split; try assumption.
        apply (Permutation_in _ (Permutation_sym Hperm) Hf).
Qed.

Lemma page_order_is_irrelevant_witness :
  (forall err,
      read_files [Sample.page [Sample.purchase_row];
                  Sample.page [Sample.topup_row]] [] = Raise err ->
      exists err',
        read_files [Sample.page [Sample.topup_row];
                    Sample.page [Sample.purchase_row]] [] = Raise err')
  /\ (forall c,
        read_files [Sample.page [Sample.purchase_row];
                    Sample.page [Sample.topup_row]] [] = Ok c ->
        exists c',
          read_files [Sample.page [Sample.topup_row];
                      Sample.page [Sample.purchase_row]] [] = Ok c'
          /\ (c = [] <-> c' = [])
          /\ forall x, existsb (entry_eqb x) c = existsb (entry_eqb x) c').
Proof.
  apply (@page_order_is_irrelevant
           [Sample.page [Sample.purchase_row]; Sample.page [Sample.topup_row]]
           [Sample.page [Sample.topup_row]; Sample.page [Sample.purchase_row]]).
  apply perm_swap.
Defined.

(* ================================================================== *)
(** * Pages read more than once *)
(* ================================================================== *)

Lemma dec_eqb_refl (d : Decimal) : is_nan d = false -> Dec.eqb d d = true.
Proof.
  destruct d as [s c e | s | s g p]; simpl; intros H.
  - destruct (c =? 0); [reflexivity|].
    rewrite eqb_reflx, N.eqb_refl. reflexivity.
  - apply eqb_reflx.
  - discriminate H.
Qed.

Lemma dec_eqb_nan (d x : Decimal) : is_nan d = true -> Dec.eqb d x = false.
Proof. destruct d; simpl; intros H; [discriminate | discriminate | reflexivity]. Qed.

Lemma entry_eqb_refl (e : Entry) : has_nan e = false -> entry_eqb e e = true.
Proof.
  unfold has_nan. rewrite !orb_false_iff. intros [[[H1 H2] H3] H4].
  apply entry_eqb_fields. rewrite !date_eqb_eq, !str_eqb_eq.
  repeat split; try reflexivity; apply dec_eqb_refl; assumption.
Qed.

(** An entry with a NaN field equals no entry. *)
Lemma entry_eqb_nan (e x : Entry) : has_nan e = true -> entry_eqb e x = false.
Proof.
  intros H. destruct (entry_eqb e x) eqn:E; [|reflexivity].
  apply entry_eqb_fields in E as (_ & _ & E3 & E4 & E5 & E6 & _).
  unfold has_nan in H. rewrite !orb_true_iff in H.
  destruct H as [[[H | H] | H] | H];
    [rewrite (@dec_eqb_nan _ _ H) in E3 | rewrite (@dec_eqb_nan _ _ H) in E4
     | rewrite (@dec_eqb_nan _ _ H) in E5 | rewrite (@dec_eqb_nan _ _ H) in E6];
    discriminate.
Qed.

Lemma read_files_app (a b : list Node) (acc : EntrySet) :
  read_files (a ++ b) acc = (c <- read_files a acc ;; read_files b c).
Proof.
  revert acc. induction a as [| f a IH]; intros acc; simpl; [reflexivity|].
  destruct (read_in f) as [s | e]; simpl; [apply IH | reflexivity].
Qed.

Lemma set_update_absorbs (t s : EntrySet) :
  (forall e, In e t -> existsb (entry_eqb e) s = true) ->
  set_update s t = s.
Proof.
  unfold set_update. induction t as [| x t IH]; intros H; simpl; [reflexivity|].
  unfold set_insert at 2. rewrite (H x (or_introl eq_refl)).
  apply IH. intros e He. apply H. right. exact He.
Qed.

Lemma set_insert_length (e : Entry) (s : EntrySet) :
  (List.length s <= List.length (set_insert e s))%nat.
Proof.
  unfold set_insert. destruct (existsb (entry_eqb e) s); simpl; lia.
Qed.

Lemma set_update_length (t s : EntrySet) :
  (List.length s <= List.length (set_update s t))%nat.
Proof.
  unfold set_update. revert s.
  induction t as [| x t IH]; intros s; simpl; [lia|].
  specialize (IH (set_insert x s)). pose proof (@set_insert_length x s). lia.
Qed.

Lemma set_update_grows (t s : EntrySet) (e : Entry) :
  In e t -> has_nan e = true ->
  (List.length s < List.length (set_update s t))%nat.
Proof.
  revert s. induction t as [| x t IH]; intros s Hin Hnan; [destruct Hin|].
  change (set_update s (x :: t)) with (set_update (set_insert x s) t).
  destruct Hin as [-> | Hin].
  - pose proof (@set_update_length t (set_insert e s)) as Hlen.
    unfold set_insert in *.
    assert (existsb (entry_eqb e) s = false) as E.
    { destruct (existsb (entry_eqb e) s) eqn:E; [|reflexivity].
      apply existsb_exists in E as (y & _ & Hy).
      rewrite (@entry_eqb_nan e y Hnan) in Hy. discriminate Hy. }
    rewrite E in *. simpl in Hlen. lia.
  - specialize (IH (set_insert x s) Hin Hnan).
    pose proof (@set_insert_length x s). lia.
Qed.

(** A page that is read a second time adds nothing, when none of its
    entries has a NaN field: the run collects the very same set. *)
Theorem page_read_twice_adds_nothing
        (files : list Node) (p : Node) (c s : EntrySet) :
  read_files files [] = Ok c ->
  In p files -> read_in p = Ok s ->
  (forall e, In e s -> has_nan e = false) ->
  read_files (files ++ [p]) [] = Ok c.
Proof.
  intros H Hp Hs Hnan.
  rewrite read_files_app, H. simpl. rewrite Hs. simpl.
  rewrite set_update_absorbs; [reflexivity|].
  intros e He.
  apply (@read_files_covers files [] c s p e e Hp Hs He
           (@entry_eqb_refl e (Hnan e He)) H).
Qed.

Lemma page_read_twice_adds_nothing_witness :
  read_files ([Sample.page [Sample.purchase_row; Sample.topup_row]]
                ++ [Sample.page [Sample.purchase_row; Sample.topup_row]]) []
  = Ok [Sample.purchase_entry; Sample.topup_entry].
Proof.
  apply (@page_read_twice_adds_nothing
           [Sample.page [Sample.purchase_row; Sample.topup_row]]
           (Sample.page [Sample.purchase_row; Sample.topup_row])
           [Sample.purchase_entry; Sample.topup_entry]
           [Sample.topup_entry; Sample.purchase_entry]).
  - vm_compute. reflexivity.
  - left. reflexivity.
  - vm_compute. reflexivity.
  - intros e [<- | [<- | []]]; reflexivity.
Defined.

(** An entry with a NaN field is never merged: a page that holds one and
    is read a second time makes the collected set longer. *)
Theorem nan_entry_is_collected_again
        (files : list Node) (p : Node) (c s : EntrySet) (e : Entry) :
  read_files files [] = Ok c ->
  read_in p = Ok s -> In e s -> has_nan e = true ->
  exists c',
    read_files (files ++ [p]) [] = Ok c'
    /\ (List.length c < List.length c')%nat.
Proof.
  intros H Hs He Hnan.
  exists (set_update c s). split.
  - rewrite read_files_app, H. simpl. rewrite Hs. reflexivity.
  - apply (@set_update_grows s c e He Hnan).
Qed.

Lemma nan_entry_is_collected_again_witness :
  exists c',
    read_files
      ([Sample.page [Sample.data_row Sample.date_td (lit "shop") (lit "1")
                                     (Sample.td (lit "NaN"))
                                     (Sample.td (lit "1"))]]
         ++ [Sample.page [Sample.data_row Sample.date_td (lit "shop") (lit "1")
                                          (Sample.td (lit "NaN"))
                                          (Sample.td (lit "1"))]]) []
    = Ok c'
    /\ (List.length
          [mkEntry (mkDate 2023 4 1) (lit "shop") (Finite false 1 0)
                   (NaN false false 0) zero zero (lit "OK") (lit "1") []]
        < List.length c')%nat.
Proof.
  apply (@nan_entry_is_collected_again
           [Sample.page [Sample.data_row Sample.date_td (lit "shop") (lit "1")
                                         (Sample.td (lit "NaN"))
                                         (Sample.td (lit "1"))]]
           (Sample.page [Sample.data_row Sample.date_td (lit "shop") (lit "1")
                                         (Sample.td (lit "NaN"))
                                         (Sample.td (lit "1"))])
           _
           [mkEntry (mkDate 2023 4 1) (lit "shop") (Finite false 1 0)
                    (NaN false false 0) zero zero (lit "OK") (lit "1") []]
           (mkEntry (mkDate 2023 4 1) (lit "shop") (Finite false 1 0)
                    (NaN false false 0) zero zero (lit "OK") (lit "1") [])).
  - vm_compute. reflexivity.
  - vm_compute. reflexivity.
  - left. reflexivity.
  - reflexivity.
Defined.

(* ================================================================== *)
(** * Texts that count as blank, dates, nested tables *)
(* ================================================================== *)

Lemma remove_comma_nil (t : str) :
  remove_char 44 t = [] <-> Forall (fun c => c = 44) t.
Proof.
  unfold remove_char. induction t as [| c t IH]; simpl.
  - split; [constructor | reflexivity].
  - destruct (N.eqb_spec c 44) as [-> | Hne]; simpl.
    + rewrite IH. split; intros H.
      * constructor; [reflexivity | exact H].
      * apply (Forall_inv_tail H).
    + split; [discriminate|]. intros H. contradiction (Hne (Forall_inv H)).
Qed.

Lemma of_str_error (t : str) (err : Exn) :
  of_str t = Raise err -> err = InvalidOperation.
Proof.
  unfold of_str. destruct (numeric_as_ascii (strip t)) as [a |].
  - destruct (parse_ascii a); [discriminate | congruence].
  - congruence.
Qed.

(** [clean_decimal] takes a text as blank exactly when, stripped, it holds
    nothing but commas: these are the texts that raise [ValueError]
    without [allow_null], and with it they give zero. *)
Theorem commas_count_as_blank (s : str) :
  (clean_decimal (Some s) false = Raise ValueError
   <-> Forall (fun c => c = 44) (strip s))
  /\ (Forall (fun c => c = 44) (strip s) ->
      clean_decimal (Some s) true = Ok zero).
Proof.
  unfold clean_decimal. simpl bind.
  pose proof (remove_comma_nil (strip s)) as Hnil.
  destruct (remove_char 44 (strip s)) as [| c t] eqn:E.
  - split; [split; intros _; [apply Hnil|]; reflexivity | reflexivity].
  - split.
    + split; intros H.
      * apply of_str_error in H. discriminate H.
      * apply Hnil in H. discriminate H.
    + intros H. apply Hnil in H. discriminate H.
Qed.

Lemma commas_count_as_blank_witness :
  clean_decimal (Some (lit " ,, ")) true = Ok zero.
Proof.
  apply (proj2 (commas_count_as_blank (lit " ,, "))).
  vm_compute. repeat constructor.
Defined.

Lemma check_date_ok (y m d : Z) (dd : Date) :
  check_date (y, m, d) = Ok dd ->
  valid_date dd
  /\ Z.of_N (year dd) = y /\ Z.of_N (month dd) = m /\ Z.of_N (day dd) = d.
Proof.
  unfold check_date.
  match goal with
  | |- (if ?c then _ else _) = _ -> _ => destruct c eqn:Hc; [|discriminate]
  end.
  intros H. injection H as <-.
  rewrite !andb_true_iff, !Z.leb_le in Hc.
  destruct Hc as (((((H1 & H2) & H3) & H4) & H5) & H6).
  unfold valid_date. cbn [year month day]. lia.
Qed.

Lemma fromisoformat_valid (t : str) (d : Date) :
  fromisoformat t = Ok d -> valid_date d.
Proof.
  unfold fromisoformat. intros H.
  destruct (utf8 t) as [bytes |]; [|discriminate H].
  match type of H with
  | (if ?c then _ else _) = _ => destruct c; [|discriminate H]
  end.
  destruct (parse_isoformat_date bytes) as [[[y m] dd] |]; [|discriminate H].
  apply check_date_ok in H. apply H.
Qed.

Lemma utf8_ascii (s : str) : Forall (fun c => c < 128) s -> utf8 s = Some s.
Proof.
  induction 1 as [| c r Hc _ IH]; simpl; [reflexivity|].
  rewrite IH. unfold utf8_char.
  destruct (N.ltb_spec c 128); [reflexivity | lia].
Qed.

Lemma digit_not (c k : N) :
  is_digit c = true -> k < 48 \/ 57 < k -> (c =? k) = false.
Proof.
  intros H Hk. apply is_digit_range in H. apply N.eqb_neq. lia.
Qed.

(** The ten-character form with hyphens is read digit by digit. *)
Lemma fromisoformat_hyphens (y1 y2 y3 y4 m1 m2 d1 d2 : N) :
  forallb is_digit [y1; y2; y3; y4; m1; m2; d1; d2] = true ->
  fromisoformat [y1; y2; y3; y4; 45; m1; m2; 45; d1; d2]
  = check_date (Z.of_N (digits_value [y1; y2; y3; y4]),
                Z.of_N (digits_value [m1; m2]),
                Z.of_N (digits_value [d1; d2])).
Proof.
  intros Hd. simpl in Hd. rewrite !andb_true_iff in Hd.
  destruct Hd as (H1 & H2 & H3 & H4 & H5 & H6 & H7 & H8 & _).
  unfold fromisoformat.
  rewrite utf8_ascii
    by (apply is_digit_range in H1, H2, H3, H4, H5, H6, H7, H8;
        repeat constructor; lia).
  cbn [app List.length Nat.eqb orb].
  unfold parse_isoformat_date. cbn [parse_digits].
  rewrite H1, H2, H3, H4.
  change (45 =? 45) with true. cbn [tl andb negb].
  rewrite (@digit_not m1 87 H5) by lia. cbn [parse_digits].
  rewrite H5, H6. change (45 =? 45) with true. cbn [tl andb negb parse_digits].
  rewrite H7, H8.
  reflexivity.
Qed.

(** A date text with slashes or hyphens, after the replacement. *)
Lemma replace_slashes (y1 y2 y3 y4 m1 m2 d1 d2 s1 s2 : N) :
  forallb is_digit [y1; y2; y3; y4; m1; m2; d1; d2] = true ->
  s1 = 47 \/ s1 = 45 -> s2 = 47 \/ s2 = 45 ->
  replace_char 47 45 [y1; y2; y3; y4; s1; m1; m2; s2; d1; d2]
  = [y1; y2; y3; y4; 45; m1; m2; 45; d1; d2].
Proof.
  intros Hd Hs1 Hs2.
  simpl in Hd. rewrite !andb_true_iff in Hd.
  destruct Hd as (H1 & H2 & H3 & H4 & H5 & H6 & H7 & H8 & _).
  apply is_digit_range in H1, H2, H3, H4, H5, H6, H7, H8.
  unfold replace_char. cbn [map].
  repeat match goal with
         | |- context [?a =? 47] =>
           destruct (N.eqb_spec a 47); try lia
         end;
    destruct Hs1 as [-> | ->], Hs2 as [-> | ->];
    try reflexivity; try lia; try discriminate.
Qed.

(** A row with a first cell that is not blank and without header cells is
    not skipped. *)
Lemma read_row_not_skipped (row c : Node) :
  find_all (lit "th") row = [] ->
  nth_error (find_all (lit "td") row) 0 = Some c ->
  nonblank (tag_string c) = true ->
  read_row row <> Ok None.
Proof.
  intros Hth Hc Hnb Hrow. unfold read_row in Hrow. rewrite Hth in Hrow.
  destruct (find_all (lit "td") row) as [| c' rest]; [discriminate Hc|].
  injection Hc as ->.
  unfold read_cells in Hrow. rewrite Hnb in Hrow. simpl in Hrow.
  repeat (apply bind_ok in Hrow; destruct Hrow as (? & _ & Hrow)).
  discriminate Hrow.
Qed.

(** Every entry carries a day of the calendar, and it is the day its date
    cell names.  For a date cell that reads YYYY/MM/DD, or the same with
    hyphens, a row that builds an entry gives it exactly that year, month
    and day; and when these name no day of the calendar, the row builds no
    entry: unless it has a header cell, it raises an error. *)
Theorem entry_date_is_valid (row : Node) :
  (forall e, read_row row = Ok (Some e) -> valid_date (date e))
  /\ (forall (c : Node) (s : str) (y1 y2 y3 y4 m1 m2 d1 d2 s1 s2 : N),
        nth_error (find_all (lit "td") row) 0 = Some c ->
        tag_string c = Some s ->
        strip s = [y1; y2; y3; y4; s1; m1; m2; s2; d1; d2] ->
        forallb is_digit [y1; y2; y3; y4; m1; m2; d1; d2] = true ->
        s1 = 47 \/ s1 = 45 -> s2 = 47 \/ s2 = 45 ->
        (forall e, read_row row = Ok (Some e) ->
           date e = mkDate (digits_value [y1; y2; y3; y4])
                           (digits_value [m1; m2])
                           (digits_value [d1; d2]))
        /\ (~ valid_date (mkDate (digits_value [y1; y2; y3; y4])
                                 (digits_value [m1; m2])
                                 (digits_value [d1; d2])) ->
            (forall e, read_row row <> Ok (Some e))
            /\ (find_all (lit "th") row = [] ->
                exists err, read_row row = Raise err))).
Proof.
  assert (forall e, read_row row = Ok (Some e) -> valid_date (date e)) as Hvalid.
  { intros e H. apply read_row_entry in H as [_ H].
    apply read_cells_entry in H
      as (dc & tl & draw & raw & _ & _ & _ & _ & _ & _ & Hd & _).
    apply fromisoformat_valid in Hd. exact Hd. }
  split; [exact Hvalid|].
  intros c s y1 y2 y3 y4 m1 m2 d1 d2 s1 s2 Hc Hs Hstrip Hdig Hs1 Hs2.
  assert (forall e, read_row row = Ok (Some e) ->
            date e = mkDate (digits_value [y1; y2; y3; y4])
                            (digits_value [m1; m2])
                            (digits_value [d1; d2])) as Hdate.
  { intros e H. apply read_row_entry in H as [_ H].
    apply read_cells_entry in H
      as (dc & tl & draw & raw & _ & _ & H0 & _ & _ & _ & Hd & _).
    apply cell_text_ok in H0 as (c0 & s0 & Hc0 & Hs0 & Hdraw).
    rewrite Hc in Hc0. injection Hc0 as <-.
    rewrite Hs in Hs0. injection Hs0 as <-.
    rewrite Hdraw, Hstrip in Hd.
    rewrite (replace_slashes _ _ _ _ _ _ _ _ Hdig Hs1 Hs2) in Hd.
    rewrite (fromisoformat_hyphens _ _ _ _ _ _ _ _ Hdig) in Hd.
    apply check_date_ok in Hd as (_ & Hy & Hm & Hdd).
    apply N2Z.inj in Hy, Hm, Hdd.
    destruct (date e) as [yy mm dd]. cbn [year month day] in *.
    congruence. }
  split; [exact Hdate|].
  intros Hbad.
  assert (forall e, read_row row <> Ok (Some e)) as Hnone.
  { intros e H. apply Hbad. rewrite <- (Hdate e H). apply Hvalid. exact H. }
  split; [exact Hnone|].
  intros Hth.
  destruct (read_row row) as [[e |] | err] eqn:Hrow.
  - exfalso. apply (Hnone e). reflexivity.
  - exfalso.
    apply (@read_row_not_skipped row c Hth Hc); [|exact Hrow].
    unfold nonblank. rewrite Hs, Hstrip. reflexivity.
  - exists err. reflexivity.
Qed.

Lemma entry_date_is_valid_witness :
  valid_date (date Sample.purchase_entry)
  /\ date Sample.purchase_entry = mkDate 2023 4 1
  /\ exists err, read_row Sample.no_such_day_row = Raise err.
Proof.
  split; [|split].
  - apply (proj1 (entry_date_is_valid Sample.purchase_row)).
    vm_compute. reflexivity.
  - apply (proj1 (proj2 (entry_date_is_valid Sample.purchase_row)
                        Sample.date_td (lit "2023/04/01")
                        50 48 50 51 48 52 48 49 47 47
                        eq_refl eq_refl eq_refl eq_refl
                        (or_introl eq_refl) (or_introl eq_refl))).
    vm_compute. reflexivity.
  - apply (proj2 (proj2 (entry_date_is_valid Sample.no_such_day_row)
                        (Sample.td (lit "2023/02/30")) (lit "2023/02/30")
                        50 48 50 51 48 50 51 48 47 47
                        eq_refl eq_refl eq_refl eq_refl
                        (or_introl eq_refl) (or_introl eq_refl))).
    + unfold valid_date. vm_compute. intros (_ & _ & _ & H). apply H.
      reflexivity.
    + vm_compute. reflexivity.
Defined.

(** Induction on page elements, with the property for all children. *)
Lemma Node_children_ind (P : Node -> Prop) :
  (forall s, P (Text s)) ->
  (forall nm cs, Forall P cs -> P (Tag nm cs)) ->
  forall n, P n.
Proof.
  intros HT HG.
  refine (fix IH (n : Node) : P n :=
            match n with
            | Text s => HT s
            | Tag nm cs =>
              HG nm cs ((fix go (l : list Node) : Forall P l :=
                           match l with
                           | [] => Forall_nil P
                           | c :: r => Forall_cons c (IH c) (go r)
                           end) cs)
            end).
Qed.

Lemma descendants_trans (z y x : Node) :
  In y (descendants z) -> In x (descendants y) -> In x (descendants z).
Proof.
  revert y x. induction z as [s | nm cs IH] using Node_children_ind;
    intros y x Hy Hx; simpl in *.
  - destruct Hy.
  - apply in_flat_map in Hy as (c & Hc & Hyc). apply in_flat_map.
    exists c. split; [exact Hc|]. right.
    destruct Hyc as [<- | Hyc]; [exact Hx|].
    rewrite Forall_forall in IH. apply (IH c Hc y x Hyc Hx).
Qed.

(** [find_all] looks at every depth: what it finds below an element of the
    tree, it finds below the tree.  So the rows of a table nested in a cell
    are rows of the outer table too, and their cells are cells of the outer
    row. *)
Theorem find_all_reaches_nested (nm : str) (outer inner x : Node) :
  In inner (descendants outer) ->
  In x (find_all nm inner) ->
  In x (find_all nm outer).
Proof.
  unfold find_all. intros Hin Hx.
  apply filter_In in Hx as [Hx Hname]. apply filter_In.
  split; [|exact Hname].
  apply (@descendants_trans outer inner x Hin Hx).
Qed.

Lemma find_all_reaches_nested_witness :
  In Sample.purchase_row
     (find_all (lit "tr")
        (Tag (lit "table")
             [Sample.tr [Sample.td (lit "x");
                         Tag (lit "td")
                             [Tag (lit "table") [Sample.purchase_row]]]])).
Proof.
  apply (@find_all_reaches_nested (lit "tr") _
           (Tag (lit "table") [Sample.purchase_row]) Sample.purchase_row).
  - vm_compute. right. right. right. right. left. reflexivity.
  - vm_compute. left. reflexivity.
Defined.

(* ================================================================== *)
(** * Numbers and dates as they are written *)
(* ================================================================== *)

Lemma div10_le (c : N) (f : positive) :
  c <= 2 * N.pos f + 1 -> c / 10 <= N.pos f.
Proof.
  intros H. pose proof (N.Div0.div_mod c 10) as Hq.
  pose proof (N.mod_lt c 10 ltac:(discriminate)) as Hr.
  set (q := c / 10) in *. set (r := c mod 10) in *. clearbody q r. lia.
Qed.

(** The digits do not depend on the fuel, as long as it is enough. *)
Lemma digits_pos_fuel (f1 : positive) :
  forall (f2 : positive) (c : N),
    c <= N.pos f1 -> c <= N.pos f2 -> digits_pos f1 c = digits_pos f2 c.
Proof.
  induction f1 as [f1 IH | f1 IH |]; intros f2 c H1 H2;
    destruct f2 as [f2 | f2 |]; cbn [digits_pos];
    destruct (N.ltb_spec c 10) as [Hlt | Hge]; try reflexivity; try lia;
    f_equal; apply IH; apply div10_le; lia.
Qed.

Lemma to_digits_small (c : N) : c < 10 -> to_digits c = [48 + c].
Proof.
  intros H.
  assert (forall f, digits_pos f c = [48 + c]) as Hf
      by (intros f; destruct f; cbn [digits_pos];
          destruct (N.ltb_spec c 10); try reflexivity; lia).
  destruct c as [| p]; [reflexivity | apply Hf].
Qed.

Lemma to_digits_snoc (c k : N) :
  0 < c -> k < 10 -> to_digits (10 * c + k) = to_digits c ++ [48 + k].
Proof.
  intros Hc Hk.
  assert ((10 * c + k) / 10 = c) as Hdiv
      by (symmetry; apply (N.div_unique _ 10 c k); [exact Hk | reflexivity]).
  assert ((10 * c + k) mod 10 = k) as Hmod
      by (symmetry; apply (N.mod_unique _ 10 c k); [exact Hk | reflexivity]).
  destruct c as [| p]; [lia|].
  remember (10 * N.pos p + k) as n eqn:En.
  destruct n as [| q]; [lia|].
  unfold to_digits.
  assert (N.pos p <= N.pos q / 10) as Hle by (rewrite Hdiv; lia).
  assert (10 <= N.pos q) as Hten by lia.
  destruct q as [f | f |]; cbn [digits_pos];
    match goal with
    | |- context [?a <? 10] =>
      destruct (N.ltb_spec a 10) as [Hlt | Hge]; [lia|]
    end;
    try lia; rewrite Hdiv, Hmod; f_equal;
    apply digits_pos_fuel; try lia;
    rewrite <- Hdiv; apply div10_le; lia.
Qed.

Lemma digits_value_snoc (ds : str) (d : N) :
  digits_value (ds ++ [d]) = 10 * digits_value ds + (d - 48).
Proof.
  rewrite digits_value_app. simpl List.length.
  change (digits_value [d]) with (0 * 10 + (d - 48)).
  change (10 ^ N.of_nat 1) with 10. lia.
Qed.

Lemma digits_value_lt (ds : str) :
  all_digits ds -> digits_value ds < 10 ^ N.of_nat (List.length ds).
Proof.
  induction ds as [| d l IH] using rev_ind; intros H.
  - reflexivity.
  - apply Forall_app in H as [Hl Hd]. apply Forall_inv in Hd.
    apply is_digit_range in Hd. specialize (IH Hl).
    rewrite digits_value_snoc, length_app, Nat.add_comm. simpl List.length.
    rewrite Nnat.Nat2N.inj_succ, N.pow_succ_r'. lia.
Qed.

(** The digits of a text without an exponent part, of which the last [k]
    follow the point, are within the maximum context unless the text has
    more than 999999999999999999 digits: the check that [parse_number]
    leaves out for such a text would pass. *)
Lemma plain_number_within_max_context (ds : str) (k : nat) :
  all_digits ds -> (k <= List.length ds)%nat ->
  (Z.of_nat (List.length ds) <= max_prec)%Z ->
  within_max_context (digits_value ds) (- Z.of_nat k) = true.
Proof.
  intros Hds Hk Hlen. unfold within_max_context.
  unfold min_etiny, max_prec, max_emax in *.
  destruct (N.eqb_spec (digits_value ds) 0) as [E | E].
  - rewrite andb_true_iff, !Z.leb_le. lia.
  - assert (ndigits (digits_value ds) <= Z.of_nat (List.length ds))%Z as Hn.
    { pose proof (digits_value_lt Hds) as Hlt.
      destruct (digits_value ds) as [| p] eqn:Ec; [contradiction E; reflexivity|].
      unfold ndigits.
      destruct (@ndigits_pos_spec p (N.pos p) ltac:(reflexivity) (N.le_refl _))
        as [Hlo _].
      assert (10 ^ (ndigits_pos p (N.pos p) - 1)
              < 10 ^ N.of_nat (List.length ds)) as Hpow
          by (eapply N.le_lt_trans; eassumption).
      apply N.pow_lt_mono_r_iff in Hpow; [lia | reflexivity]. }
    rewrite !andb_true_iff, !Z.leb_le. lia.
Qed.

Lemma leading_positive (ds : str) : leading ds -> 0 < digits_value ds.
Proof.
  intros [Hd Hhead]. destruct ds as [| c r]; [destruct Hhead|].
  pose proof (Forall_inv Hd) as Hc. apply is_digit_range in Hc.
  change (c :: r) with ([c] ++ r). rewrite digits_value_app.
  change (digits_value [c]) with (0 * 10 + (c - 48)).
  assert (0 < 10 ^ N.of_nat (List.length r)) as Hpow
      by (apply N.neq_0_lt_0, N.pow_nonzero; discriminate).
  nia.
Qed.

(** A number written without zeros in front is written back as it was. *)
Lemma to_digits_value (ds : str) :
  leading ds -> to_digits (digits_value ds) = ds.
Proof.
  induction ds as [| d l IH] using rev_ind; intros Hlead.
  - destruct Hlead as [_ []].
  - destruct Hlead as [Hall Hhead].
    apply Forall_app in Hall as [Hl Hd]. apply Forall_inv in Hd.
    apply is_digit_range in Hd.
    rewrite digits_value_snoc.
    destruct l as [| c r].
    + simpl in Hhead. change (digits_value []) with 0.
      rewrite to_digits_small by lia. cbn [app]. f_equal. lia.
    + assert (leading (c :: r)) as Hlead' by (split; assumption).
      rewrite to_digits_snoc by (try apply leading_positive; try assumption; lia).
      rewrite (IH Hlead'). f_equal. f_equal. lia.
Qed.

Lemma zeros_0 : zeros 0 = [].
Proof. reflexivity. Qed.

(** A number of digits [ip], a point and digits [fp], is written that
    way. *)
Lemma dec_str_plain (s : bool) (ip fp : str) :
  leading ip -> all_digits fp ->
  dec_str (Finite s (digits_value (ip ++ fp)) (- Z.of_nat (List.length fp)))
  = (if s then [45] else [])
      ++ ip ++ match fp with [] => [] | _ :: _ => 46 :: fp end.
Proof.
  intros Hip Hfp.
  assert (leading (ip ++ fp)) as Hlead.
  { destruct Hip as [Hd Hh]. split; [apply Forall_app; split; assumption|].
    destruct ip; [destruct Hh | exact Hh]. }
  assert (ip <> []) as Hne by (destruct Hip as [_ Hh]; destruct ip;
                               [destruct Hh | discriminate]).
  unfold dec_str. rewrite (to_digits_value Hlead), length_app.
  assert (0 < List.length ip)%nat as Hlen
      by (destruct ip; [contradiction Hne; reflexivity | simpl; lia]).
  replace (- Z.of_nat (List.length fp)
           + Z.of_nat (List.length ip + List.length fp))%Z
    with (Z.of_nat (List.length ip)) by lia.
  replace ((- Z.of_nat (List.length fp) <=? 0)%Z
           && (-6 <? Z.of_nat (List.length ip))%Z) with true
    by (symmetry; apply andb_true_intro; split;
        [apply Z.leb_le | apply Z.ltb_lt]; lia).
  replace (Z.of_nat (List.length ip) <=? 0)%Z with false
    by (symmetry; apply Z.leb_gt; lia).
  rewrite Z.eqb_refl, Nat2Z.id, app_nil_r.
  destruct fp as [| c fp'].
  - replace (Z.of_nat (List.length ip + List.length (@nil N))
             <=? Z.of_nat (List.length ip))%Z with true
      by (symmetry; apply Z.leb_le; simpl; lia).
    replace (Z.of_nat (List.length ip)
             - Z.of_nat (List.length ip + List.length (@nil N)))%Z
      with 0%Z by (simpl; lia).
    rewrite zeros_0, !app_nil_r. reflexivity.
  - replace (Z.of_nat (List.length ip + List.length (c :: fp'))
             <=? Z.of_nat (List.length ip))%Z with false
      by (symmetry; apply Z.leb_gt; simpl; lia).
    rewrite firstn_app, firstn_all, Nat.sub_diag, firstn_O, app_nil_r.
    rewrite skipn_app, skipn_all, Nat.sub_diag, skipn_O. reflexivity.
Qed.

Lemma parse_ascii_digits (ip : str) :
  ip <> [] -> all_digits ip ->
  parse_ascii ip = Some (Finite false (digits_value ip) 0).
Proof.
  intros Hne Hip.
  destruct ip as [| c0 ip']; [contradiction Hne; reflexivity|].
  pose proof (Forall_inv Hip) as Hc0. apply is_digit_range in Hc0.
  assert (lower c0 = c0) as Hlow by (unfold lower; bool_N; reflexivity).
  unfold parse_ascii.
  replace (parse_sign (c0 :: ip')) with (false, c0 :: ip')
    by (simpl; bool_N; reflexivity).
  cbn [lit list_ascii_of_string map N_of_ascii N_of_digits app
       strip_prefix_ci].
  rewrite Hlow.
  replace (c0 =? _) with false by (symmetry; apply N.eqb_neq; cbn; lia).
  replace (c0 =? _) with false by (symmetry; apply N.eqb_neq; cbn; lia).
  replace (c0 =? _) with false by (symmetry; apply N.eqb_neq; cbn; lia).
  unfold parse_number. rewrite (span_digits_all Hip).
  rewrite app_nil_r. cbn [parse_exponent List.length]. reflexivity.
Qed.

Lemma of_str_digits (ip : str) :
  ip <> [] -> all_digits ip ->
  of_str ip = Ok (Finite false (digits_value ip) 0).
Proof.
  intros Hne Hip. unfold of_str.
  assert (Forall plain ip) as Hplain
      by (revert Hip; apply Forall_impl; intros c H; left; exact H).
  pose proof (strip_padded (ws1 := []) (ws2 := [])
                (Forall_nil _) (Forall_nil _) (plain_not_space Hplain)) as Hs.
  simpl in Hs. rewrite app_nil_r in Hs. rewrite Hs.
  rewrite (numeric_as_ascii_plain Hplain).
  rewrite (parse_ascii_digits Hne Hip). reflexivity.
Qed.

Lemma concat_digits (gs : list str) :
  Forall all_digits gs -> all_digits (List.concat gs).
Proof.
  induction 1 as [| g gs Hg _ IH]; simpl.
  - constructor.
  - apply Forall_app. split; assumption.
Qed.

(** Cleaning and parsing a number with or without separating commas and
    with or without a fractional part. *)
Lemma clean_decimal_number (gs : list str) (fpo : option str)
      (ws1 ws2 : str) (allow_null : bool) :
  List.concat gs <> [] -> Forall all_digits gs ->
  all_digits (fraction_digits fpo) -> all_space ws1 -> all_space ws2 ->
  clean_decimal (Some (ws1 ++ (join_commas gs ++ fraction fpo) ++ ws2))
                allow_null
  = Ok (Finite false (digits_value (List.concat gs ++ fraction_digits fpo))
               (- Z.of_nat (List.length (fraction_digits fpo)))).
Proof.
  intros Hne Hgs Hfp Hws1 Hws2.
  pose proof (concat_digits Hgs) as Hip.
  assert (Forall (fun c => 44 <= c <= 57) (fraction fpo)) as Hfr.
  { destruct fpo as [fp |]; simpl in *; [|constructor].
    constructor; [lia|]. revert Hfp. apply Forall_impl.
    intros c H. apply is_digit_range in H. lia. }
  assert (Forall (fun c => isspace c = false) (join_commas gs ++ fraction fpo))
    as Hbody.
  { apply Forall_app. split.
    - generalize (join_commas_chars Hgs). apply Forall_impl.
      intros c H. apply range_not_space. exact H.
    - revert Hfr. apply Forall_impl. intros c H. apply range_not_space. exact H. }
  unfold clean_decimal. simpl bind.
  rewrite (strip_padded Hws1 Hws2 Hbody).
  unfold remove_char. rewrite filter_app. fold (remove_char 44 (join_commas gs)).
  rewrite (remove_comma_join Hgs).
  fold (remove_char 44 (fraction fpo)).
  assert (remove_char 44 (fraction fpo) = fraction fpo) as Efp.
  { apply remove_comma_fixed. destruct fpo as [fp |]; simpl in *; [|constructor].
    constructor; [discriminate|]. apply digits_no_comma. exact Hfp. }
  rewrite Efp.
  destruct fpo as [fp |]; simpl fraction; simpl fraction_digits in *.
  - rewrite <- (of_str_plain Hne Hip Hfp).
    destruct (List.concat gs) as [| c ip']; [contradiction Hne; reflexivity|].
    reflexivity.
  - rewrite !app_nil_r. change (- Z.of_nat (List.length (@nil N)))%Z with 0%Z.
    rewrite <- (of_str_digits Hne Hip).
    destruct (List.concat gs) as [| c ip']; [contradiction Hne; reflexivity|].
    reflexivity.
Qed.

(** An amount is written as it was read: a number without zeros in front,
    with or without separating commas and with or without a fractional
    part, appears in the CSV file with the same digits and without the
    commas, after a minus sign for a top-up (of at most 28 digits). *)
Theorem amount_written_as_read
        (gs : list str) (fpo : option str) (ws1 ws2 memo_ : str) :
  leading (List.concat gs) -> Forall all_digits gs ->
  all_digits (fraction_digits fpo) -> all_space ws1 -> all_space ws2 ->
  (memo_ = topup ->
   (List.length (List.concat gs ++ fraction_digits fpo) <= 28)%nat) ->
  exists d,
    signed_amount (ws1 ++ (join_commas gs ++ fraction fpo) ++ ws2) memo_ = Ok d
    /\ dec_str d
       = (if str_eqb memo_ topup then [45] else [])
           ++ List.concat gs ++ fraction_out fpo.
Proof.
  intros Hlead Hgs Hfp Hws1 Hws2 Hlen.
  assert (List.concat gs <> []) as Hne
      by (destruct Hlead as [_ Hh]; destruct (List.concat gs);
          [destruct Hh | discriminate]).
  assert (fraction_out fpo
          = match fraction_digits fpo with [] => [] | _ :: _ => 46 :: fraction_digits fpo end)
    as Hout by (destruct fpo as [[| c f] |]; reflexivity).
  unfold signed_amount.
  rewrite (clean_decimal_number fpo false Hne Hgs Hfp Hws1 Hws2). cbn [bind].
  destruct (str_eqb memo_ topup) eqn:Ememo.
  - apply str_eqb_eq in Ememo. specialize (Hlen Ememo).
    rewrite mul_minus_one_fits.
    + eexists. split; [reflexivity|]. simpl negate.
      rewrite (dec_str_plain true Hlead Hfp), Hout. reflexivity.
    + simpl. apply andb_true_intro. split; [apply andb_true_intro; split|].
      * apply Z.leb_le. apply ndigits_le_prec.
        eapply N.lt_le_trans.
        -- apply digits_value_lt. apply Forall_app. split;
             [apply concat_digits; exact Hgs | exact Hfp].
        -- apply N.pow_le_mono_r; [discriminate | lia].
      * apply Z.leb_le. rewrite length_app in Hlen.
        unfold Etiny, Emin, prec. lia.
      * apply Z.leb_le.
        assert (ndigits (digits_value (List.concat gs ++ fraction_digits fpo))
                <= prec)%Z as Hd.
        { apply ndigits_le_prec. eapply N.lt_le_trans.
          - apply digits_value_lt. apply Forall_app. split;
              [apply concat_digits; exact Hgs | exact Hfp].
          - apply N.pow_le_mono_r; [discriminate | lia]. }
        unfold Emax, prec in *. lia.
  - eexists. split; [reflexivity|].
    rewrite (dec_str_plain false Hlead Hfp), Hout. reflexivity.
Qed.

Lemma amount_written_as_read_witness :
  exists d,
    signed_amount (lit " 1,234,567.50 ") topup = Ok d
    /\ dec_str d = lit "-1234567.50".
Proof.
  apply (@amount_written_as_read
           [lit "1"; lit "234"; lit "567"] (Some (lit "50"))
           (lit " ") (lit " ") topup).
  - split; [repeat constructor | discriminate].
  - repeat constructor.
  - repeat constructor.
  - repeat constructor.
  - repeat constructor.
  - intros _. simpl. lia.
Defined.

Lemma pad_length (n : nat) (x : str) :
  List.length (pad n x) = Nat.max n (List.length x).
Proof. unfold pad. rewrite length_app, repeat_length. lia. Qed.

(** Padding gives back the zeros in front that the value lost. *)
Lemma pad_digits (ds : str) :
  all_digits ds -> ds <> [] ->
  pad (List.length ds) (to_digits (digits_value ds)) = ds.
Proof.
  induction ds as [| d r IH]; intros Hall Hne; [contradiction Hne; reflexivity|].
  pose proof (Forall_inv Hall) as Hd. pose proof (Forall_inv_tail Hall) as Hr.
  destruct (N.eq_dec d 48) as [-> | Hd48].
  - assert (digits_value (48 :: r) = digits_value r) as Ev.
    { change (48 :: r) with ([48] ++ r). rewrite digits_value_app.
      change (digits_value [48]) with 0. lia. }
    rewrite Ev. destruct r as [| c r'].
    + reflexivity.
    + assert (c :: r' <> []) as Hne' by discriminate.
      specialize (IH Hr Hne').
      pose proof (pad_length (List.length (c :: r'))
                             (to_digits (digits_value (c :: r')))) as Hlen.
      rewrite IH in Hlen.
      unfold pad in *. simpl List.length in *.
      replace (S (S (List.length r'))
               - List.length (to_digits (digits_value (c :: r'))))%nat
        with (S (S (List.length r')
                 - List.length (to_digits (digits_value (c :: r')))))%nat
        by lia.
      cbn [repeat app]. rewrite IH. reflexivity.
  - assert (leading (d :: r)) as Hlead by (split; assumption).
    rewrite (to_digits_value Hlead). unfold pad.
    rewrite Nat.sub_diag. reflexivity.
Qed.

(** A date is written as it was read: a date cell of the form YYYY/MM/DD
    (or with hyphens) that is accepted appears in the CSV file as
    YYYY-MM-DD, with the same digits. *)
Theorem date_written_as_read
        (y1 y2 y3 y4 m1 m2 d1 d2 s1 s2 : N) (d : Date) :
  forallb is_digit [y1; y2; y3; y4; m1; m2; d1; d2] = true ->
  s1 = 47 \/ s1 = 45 -> s2 = 47 \/ s2 = 45 ->
  fromisoformat
    (replace_char 47 45 [y1; y2; y3; y4; s1; m1; m2; s2; d1; d2]) = Ok d ->
  isoformat d = [y1; y2; y3; y4; 45; m1; m2; 45; d1; d2].
Proof.
  intros Hd Hs1 Hs2 H.
  rewrite (replace_slashes _ _ _ _ _ _ _ _ Hd Hs1 Hs2) in H.
  rewrite (fromisoformat_hyphens _ _ _ _ _ _ _ _ Hd) in H.
  apply check_date_ok in H as (_ & Hy & Hm & Hdd).
  apply N2Z.inj in Hy, Hm, Hdd.
  assert (all_digits [y1; y2; y3; y4] /\ all_digits [m1; m2]
          /\ all_digits [d1; d2]) as (Ay & Am & Ad)
      by (simpl in Hd; rewrite !andb_true_iff in Hd;
          repeat split; repeat constructor; tauto).
  unfold isoformat. rewrite Hy, Hm, Hdd.
  pose proof (@pad_digits _ Ay ltac:(discriminate)) as Py.
  pose proof (@pad_digits _ Am ltac:(discriminate)) as Pm.
  pose proof (@pad_digits _ Ad ltac:(discriminate)) as Pd.
  cbn [List.length] in Py, Pm, Pd. rewrite Py, Pm, Pd.
  reflexivity.
Qed.

Lemma date_written_as_read_witness :
  isoformat (mkDate 2023 4 1) = lit "2023-04-01".
Proof.
  apply (@date_written_as_read 50 48 50 51 48 52 48 49 47 47 (mkDate 2023 4 1)).
  - reflexivity.
  - left. reflexivity.
  - left. reflexivity.
  - vm_compute. reflexivity.
Defined.

(* ================================================================== *)
(** * Quoting in the CSV file *)
(* ================================================================== *)

Lemma digits_pos_digits (f : positive) :
  forall c, all_digits (digits_pos f c).
Proof.
  assert (forall c, is_digit (48 + c mod 10) = true) as Hmod.
  { intros c. pose proof (N.mod_lt c 10 ltac:(discriminate)) as Hr.
    apply is_digit_range. set (r := c mod 10) in *. clearbody r. lia. }
  induction f as [f IH | f IH |]; intros c; cbn [digits_pos];
    destruct (N.ltb_spec c 10) as [Hlt | Hge];
    try (constructor; [apply is_digit_range; lia | constructor]);
    try (apply Forall_app; split; [apply IH|]);
    (constructor; [apply Hmod | constructor]).
Qed.

Lemma to_digits_digits (c : N) : all_digits (to_digits c).
Proof.
  destruct c as [| p]; [repeat constructor | apply digits_pos_digits].
Qed.

Lemma digits_unquoted (s : str) : all_digits s -> unquoted s.
Proof.
  apply Forall_impl. intros c H. apply is_digit_range in H.
  unfold special. bool_N; reflexivity.
Qed.

Lemma zeros_unquoted (n : Z) : unquoted (zeros n).
Proof.
  unfold zeros. apply Forall_forall. intros c Hc.
  apply repeat_spec in Hc. subst c. reflexivity.
Qed.

Lemma firstn_unquoted (n : nat) (s : str) : unquoted s -> unquoted (firstn n s).
Proof.
  intros H. rewrite <- (firstn_skipn n s) in H.
  apply Forall_app in H. tauto.
Qed.

Lemma skipn_unquoted (n : nat) (s : str) : unquoted s -> unquoted (skipn n s).
Proof.
  intros H. rewrite <- (firstn_skipn n s) in H.
  apply Forall_app in H. tauto.
Qed.

Lemma pad_unquoted (n : nat) (s : str) : unquoted s -> unquoted (pad n s).
Proof.
  intros H. unfold pad. apply Forall_app. split; [|exact H].
  apply Forall_forall. intros c Hc. apply repeat_spec in Hc. subst c.
  reflexivity.
Qed.

(** Break a text built with [++] and [::] into its pieces. *)
Ltac pieces :=
  repeat first
         [ apply Forall_nil
         | apply zeros_unquoted
         | apply firstn_unquoted
         | apply skipn_unquoted
         | apply pad_unquoted
         | apply digits_unquoted, to_digits_digits
         | apply Forall_cons; [reflexivity|]
         | apply Forall_app; split ].

Lemma dec_str_unquoted (d : Decimal) : unquoted (dec_str d).
Proof.
  unfold unquoted. destruct d as [s c e | s | s g p]; unfold dec_str.
  - cbv zeta.
    repeat match goal with
           | |- context [if ?b then _ else _] => destruct b
           end;
      unfold format_signed;
      repeat match goal with
             | |- context [if ?b then _ else _] => destruct b
             end;
      fold (unquoted (to_digits c)); pieces.
  - destruct s; cbn; pieces.
  - destruct s, g, (p =? 0); cbn [lit list_ascii_of_string map app];
      cbn [N_of_ascii N_of_digits]; pieces.
Qed.

Lemma isoformat_unquoted (d : Date) : unquoted (isoformat d).
Proof. unfold unquoted, isoformat. pieces. Qed.

Lemma csv_field_unquoted (s : str) : unquoted s -> csv_field s = s.
Proof.
  intros H. unfold csv_field.
  replace (existsb special s) with false; [reflexivity|].
  symmetry. induction H as [| c s Hc _ IH]; simpl; [reflexivity|].
  rewrite Hc, IH. reflexivity.
Qed.

(** The date and the four decimals of a line are never quoted; when the
    memo, the decision, the identifier and the note hold no comma, quote,
    carriage return or line feed, the line is the nine texts between
    commas. *)
Theorem numbers_and_dates_never_quoted (e : Entry) :
  csv_field (isoformat (date e)) = isoformat (date e)
  /\ csv_field (dec_str (amount e)) = dec_str (amount e)
  /\ csv_field (dec_str (fee e)) = dec_str (fee e)
  /\ csv_field (dec_str (atm_fee e)) = dec_str (atm_fee e)
  /\ csv_field (dec_str (conversion_fee e)) = dec_str (conversion_fee e)
  /\ (existsb special (memo e ++ decision e ++ tx_id e ++ note e) = false ->
      csv_line (field_texts e) = join 44 (field_texts e) ++ [13; 10]).
Proof.
  repeat split; try apply csv_field_unquoted;
    try apply dec_str_unquoted; try apply isoformat_unquoted.
  intros H. rewrite !existsb_app, !orb_false_iff in H.
  destruct H as (Hm & Hd & Ht & Hn).
  unfold csv_line, field_texts. cbn [map].
  rewrite !(csv_field_unquoted (dec_str_unquoted _)).
  rewrite (csv_field_unquoted (isoformat_unquoted _)).
  unfold csv_field. rewrite Hm, Hd, Ht, Hn. reflexivity.
Qed.

Lemma numbers_and_dates_never_quoted_witness :
  csv_line (field_texts Sample.topup_entry)
  = join 44 (field_texts Sample.topup_entry) ++ [13; 10].
Proof.
  apply (proj2 (proj2 (proj2 (proj2 (proj2
           (numbers_and_dates_never_quoted Sample.topup_entry)))))).
  vm_compute. reflexivity.
Defined.
